(** * The bru capability shim of the QuickJS script runtime

    A shallow embedding of [addBruShimToContext] (the second module held in
    [packages/bruno-converters/src/utils/send-request-transformer.js]): the
    builder that installs the [bru] object and its nested [runner] object
    into the guest interpreter, the host closures behind every member, the
    guest-side bootstrap script that defines [bru.sendRequest], and the
    settle/drain protocol between the host job queue and the guest job
    queue.  The first module held in the same file, the jscodeshift
    transformer that rewrites a Postman call [pm.sendRequest] into a call of
    [bru.sendRequest], is embedded in [Transformer]. *)

From Stdlib Require Import ZArith String List Bool Lia.
From stdpp Require Import base option gmap strings list.
Import ListNotations.

Local Open Scope string_scope.
Local Open Scope list_scope.

(** ** JavaScript values on either side of the boundary *)

(** The host process and the guest interpreter are two JavaScript realms.  A
    value never belongs to both: the realm is a phantom index of the type. *)
Inductive realm : Type := Host | Guest.

(** Plain data, plus the three kinds of value that are not JSON data:
    [undefined], functions and native [Error] instances.  Numbers are only
    copied and compared by the code under study, never computed with; the
    finite ones are represented by integers.  An object is the list of its
    own enumerable properties in enumeration order; a native error keeps
    [name] and [message] as non-enumerable properties. *)
Unset Elimination Schemes.
Inductive jsval (r : realm) : Type :=
| VUndefined
| VNull
| VBool (b : bool)
| VNum (n : Z)
| VStr (s : string)
| VArr (elems : list (jsval r))
| VObj (props : list (string * jsval r))
| VFun (name : string)
| VError (name message : string).
Set Elimination Schemes.

Arguments VUndefined {r}.
Arguments VNull {r}.
Arguments VBool {r} b.
Arguments VNum {r} n.
Arguments VStr {r} s.
Arguments VArr {r} elems.
Arguments VObj {r} props.
Arguments VFun {r} name.
Arguments VError {r} name message.

Abbreviation hval := (jsval Host).
Abbreviation gval := (jsval Guest).

(** How a statement or a call completes. *)
Inductive completion (r : realm) : Type :=
| Normal (v : jsval r)
| Throw (e : jsval r).

Arguments Normal {r} v.
Arguments Throw {r} e.

(** The eventual state of a promise: it may also never settle. *)
Inductive outcome (r : realm) : Type :=
| Fulfilled (v : jsval r)
| Rejected (e : jsval r)
| Pending.

Arguments Fulfilled {r} v.
Arguments Rejected {r} e.
Arguments Pending {r}.

Module JS.

(** [ToBoolean]: the test behind [if (!callback)]. *)
Definition truthy {r} (v : jsval r) : bool :=
  match v with
  | VUndefined | VNull => false
  | VBool b => b
  | VNum n => negb (Z.eqb n 0)
  | VStr s => negb (String.eqb s "")
  | VArr _ | VObj _ | VFun _ | VError _ _ => true
  end.

(** First binding of a key in a property list. *)
Fixpoint assoc {A} (k : string) (l : list (string * A)) : option A :=
  match l with
  | [] => None
  | (k', a) :: l' => if String.eqb k k' then Some a else assoc k l'
  end.

(** [target[key] = a]: an existing property keeps its place, a new one
    goes last. *)
Fixpoint assoc_set {A} (k : string) (a : A) (l : list (string * A))
  : list (string * A) :=
  match l with
  | [] => [(k, a)]
  | (k', a') :: l' =>
      if String.eqb k k' then (k, a) :: l' else (k', a') :: assoc_set k a l'
  end.

Definition type_error {r} (msg : string) : jsval r := VError "TypeError" msg.
Definition syntax_error {r} (msg : string) : jsval r := VError "SyntaxError" msg.

(** [v.message]: reading a property of [undefined] or [null] throws a
    [TypeError]; a missing property reads as [undefined].  Only the key
    [message] is ever read by the shim, so arrays, strings and functions,
    which have no such property, read as [undefined]. *)
Definition get_message {r} (v : jsval r) : completion r :=
  match v with
  | VUndefined | VNull =>
      Throw (type_error "cannot read property 'message' of undefined")
  | VObj props =>
      Normal (match assoc "message" props with
              | Some m => m
              | None => VUndefined
              end)
  | VError _ m => Normal (VStr m)
  | VBool _ | VNum _ | VStr _ | VArr _ | VFun _ => Normal VUndefined
  end.

(** Does the value carry a [message] that is a non-empty string? *)
Definition nonempty_message {r} (v : jsval r) : bool :=
  match get_message v with
  | Normal (VStr m) => negb (String.eqb m "")
  | _ => false
  end.

(** [JSON.stringify] gives no text at all for these values. *)
Definition unserializable {r} (v : jsval r) : bool :=
  match v with
  | VUndefined | VFun _ => true
  | _ => false
  end.

(** What [JSON.parse(JSON.stringify(v))] yields for a stringifiable [v]:
    object members holding [undefined] or a function are dropped, such
    array slots become [null], and a native error keeps none of its
    non-enumerable properties. *)
Fixpoint json_copy {r} (v : jsval r) : jsval r :=
  match v with
  | VArr elems =>
      VArr ((fix copy_elems (l : list (jsval r)) : list (jsval r) :=
               match l with
               | [] => []
               | x :: l' =>
                   (if unserializable x then VNull else json_copy x)
                     :: copy_elems l'
               end) elems)
  | VObj props =>
      VObj ((fix copy_props (l : list (string * jsval r))
               : list (string * jsval r) :=
               match l with
               | [] => []
               | (k, x) :: l' =>
                   if unserializable x then copy_props l'
                   else (k, json_copy x) :: copy_props l'
               end) props)
  | VError _ _ => VObj []
  | VUndefined => VUndefined
  | VFun f => VFun f
  | VNull => VNull
  | VBool b => VBool b
  | VNum n => VNum n
  | VStr s => VStr s
  end.

(** [JSON.parse(JSON.stringify(v))].  For [undefined] and for a function
    [JSON.stringify] returns [undefined], which [JSON.parse] refuses with
    a [SyntaxError]. *)
Definition json_roundtrip {r} (v : jsval r) : completion r :=
  if unserializable v
  then Throw (syntax_error "unexpected token: 'undefined'")
  else Normal (json_copy v).

(** JSON-safe data: scalars, arrays and string-keyed objects with distinct
    keys, nested to any depth. *)
Fixpoint no_dup_keys (ks : list string) : bool :=
  match ks with
  | [] => true
  | k :: ks' => negb (existsb (String.eqb k) ks') && no_dup_keys ks'
  end.

Fixpoint json_safe {r} (v : jsval r) : bool :=
  match v with
  | VNull | VBool _ | VNum _ | VStr _ => true
  | VArr elems => forallb json_safe elems
  | VObj props =>
      no_dup_keys (map fst props)
      && forallb (fun kv => json_safe (snd kv)) props
  | VUndefined | VFun _ | VError _ _ => false
  end.

End JS.

(** ** The marshalling codec *)

Module Codec.

(** Structural conversion between the realms: scalars are copied, arrays
    element by element in order, objects member by member in enumeration
    order.  A function is never carried over as a live reference, and a
    native error arrives as a plain object holding its message. *)
Fixpoint transfer {a b : realm} (v : jsval a) : jsval b :=
  match v with
  | VUndefined => VUndefined
  | VNull => VNull
  | VBool x => VBool x
  | VNum n => VNum n
  | VStr s => VStr s
  | VArr elems =>
      VArr ((fix go (l : list (jsval a)) : list (jsval b) :=
               match l with
               | [] => []
               | x :: l' => transfer x :: go l'
               end) elems)
  | VObj props =>
      VObj ((fix go (l : list (string * jsval a)) : list (string * jsval b) :=
               match l with
               | [] => []
               | (k, x) :: l' => (k, transfer x) :: go l'
               end) props)
  | VFun _ => VUndefined
  | VError _ m => VObj [("message", VStr m)]
  end.

(** Values that convert structurally: scalars, errors and containers of
    such; a function anywhere inside makes the conversion fail. *)
Fixpoint convertible {r} (v : jsval r) : bool :=
  match v with
  | VUndefined | VNull | VBool _ | VNum _ | VStr _ | VError _ _ => true
  | VArr elems => forallb convertible elems
  | VObj props => forallb (fun kv => convertible (snd kv)) props
  | VFun _ => false
  end.

(** Modelled from the spec: [cleanJson] of [utils], required by the shim
    but not part of the sources at hand.  Section 4.1: values are
    deep-copied through a serialize/deserialize round trip that drops
    non-serializable members rather than failing the whole call. *)
Definition cleanJson {r} (data : jsval r) : jsval r :=
  match JS.json_roundtrip data with
  | Normal copy => copy
  | Throw _ => data
  end.

(** Modelled from the spec: [cleanCircularJson] of [utils], the
    circular-safe variant of [cleanJson] (sections 3 and 4.3) that breaks
    reference cycles before the round trip.  Values here are finite trees,
    which hold no cycle to break. *)
Definition cleanCircularJson {r} (data : jsval r) : jsval r :=
  cleanJson data.

(** Modelled from the spec: the two directions of the codec of section
    4.1, [toGuest] ([marshallToVm] of the runtime utilities) and [toHost]
    ([vm.dump] of the interpreter binding), neither of which is part of
    the sources at hand.  Scalars and plain containers convert
    structurally, preserving key order and array order; a value that fails
    structural conversion is first put through the serialize/deserialize
    round trip; an error is normalized to a plain object with its
    message. *)
Definition convert {a b : realm} (value : jsval a) : jsval b :=
  if convertible value then transfer value
  else transfer (cleanJson value).

Definition marshallToVm (value : hval) : gval := convert value.
Definition dump (handle : gval) : hval := convert handle.

End Codec.

(** ** The host capability provider *)

Module Provider.

Section Ops.

(** Host-owned state (variables of every scope, run-control flags, the
  network, ...): only the provider's operations read or change it. *)
Context {H : Type}.

(** A synchronous operation returns or throws. *)
Definition method : Type := list hval -> H -> completion Host * H.

(** An asynchronous operation returns a promise, settled or not. *)
Definition async_method : Type := list hval -> H -> outcome Host * H.

(** [bru.runner]: any of its operations may be missing. *)
Record Runner : Type := {
skipRequest : option method;
stopExecution : option method;
setNextRequest : option method
}.

(** The object [bru] handed to [addBruShimToContext]: its synchronous
  operations and its promise-returning operations, by name, and the
  [runner] member, which may be absent. *)
Record Bru : Type := {
bru_call : string -> method;
bru_async : string -> async_method;
bru_runner : option Runner
}.

End Ops.

Arguments Runner H : clear implicits.
Arguments Bru H : clear implicits.
Arguments method H : clear implicits.
Arguments async_method H : clear implicits.

End Provider.

(** ** Host closures behind the members of [bru] *)

Module Wrappers.
Import Codec Provider.

Section WithProvider.

Context {H : Type}.
Variable bru : Bru H.

(** What the guest gets back from one call of a host closure created by
    [vm.newFunction]: a returned value, an exception raised on the host
    (which the interpreter binding re-throws inside the guest), or the
    handle of a guest promise, given here with the way that promise
    ends. *)
Inductive reply : Type :=
| Returns (v : gval)
| Raises (e : hval)
| Promises (o : outcome Guest).

(** Host code that may throw, over the host state. *)
Definition hostM (A : Type) : Type := H -> (A + hval) * H.

Definition ret {A} (a : A) : hostM A := fun h => (inl a, h).
Definition throw {A} (e : hval) : hostM A := fun h => (inr e, h).
Definition bind {A B} (m : hostM A) (k : A -> hostM B) : hostM B :=
  fun h =>
    match m h with
    | (inl a, h') => k a h'
    | (inr e, h') => (inr e, h')
    end.

(** Calling an operation of the provider. *)
Definition invoke (m : method H) (args : list hval) : hostM hval :=
  fun h =>
    match m args h with
    | (Normal v, h') => (inl v, h')
    | (Throw e, h') => (inr e, h')
    end.

(** The reply of a closure whose body is synchronous. *)
Definition run (body : hostM gval) : H -> reply * H :=
  fun h =>
    match body h with
    | (inl v, h') => (Returns v, h')
    | (inr e, h') => (Raises e, h')
    end.

(** The [i]-th argument the guest passed; a missing one reads as
    [undefined]. *)
Definition arg (i : nat) (args : list gval) : gval :=
  nth i args VUndefined.

Notation "x <- m ;; k" := (bind m (fun x => k))
  (at level 100, m at next level, right associativity).

(** *** Synchronous members, in the order of the source *)

Definition cwd (args : list gval) : hostM gval :=
  v <- invoke (bru_call bru "cwd") [] ;;
  ret (marshallToVm v).

Definition getEnvName (args : list gval) : hostM gval :=
  v <- invoke (bru_call bru "getEnvName") [] ;;
  ret (marshallToVm v).

Definition getCollectionName (args : list gval) : hostM gval :=
  v <- invoke (bru_call bru "getCollectionName") [] ;;
  ret (marshallToVm v).

Definition getProcessEnv (args : list gval) : hostM gval :=
  v <- invoke (bru_call bru "getProcessEnv") [dump (arg 0 args)] ;;
  ret (marshallToVm v).

Definition interpolate (args : list gval) : hostM gval :=
  v <- invoke (bru_call bru "interpolate") [dump (arg 0 args)] ;;
  ret (marshallToVm v).

Definition hasEnvVar (args : list gval) : hostM gval :=
  v <- invoke (bru_call bru "hasEnvVar") [dump (arg 0 args)] ;;
  ret (marshallToVm v).

Definition getEnvVar (args : list gval) : hostM gval :=
  v <- invoke (bru_call bru "getEnvVar") [dump (arg 0 args)] ;;
  ret (marshallToVm v).

Definition setEnvVar (args : list gval) : hostM gval :=
  _ <- invoke (bru_call bru "setEnvVar")
         [dump (arg 0 args); dump (arg 1 args)] ;;
  ret VUndefined.

Definition deleteEnvVar (args : list gval) : hostM gval :=
  v <- invoke (bru_call bru "deleteEnvVar") [dump (arg 0 args)] ;;
  ret (marshallToVm v).

Definition getGlobalEnvVar (args : list gval) : hostM gval :=
  v <- invoke (bru_call bru "getGlobalEnvVar") [dump (arg 0 args)] ;;
  ret (marshallToVm v).

Definition getOauth2CredentialVar (args : list gval) : hostM gval :=
  v <- invoke (bru_call bru "getOauth2CredentialVar") [dump (arg 0 args)] ;;
  ret (marshallToVm v).

Definition setGlobalEnvVar (args : list gval) : hostM gval :=
  _ <- invoke (bru_call bru "setGlobalEnvVar")
         [dump (arg 0 args); dump (arg 1 args)] ;;
  ret VUndefined.

Definition hasVar (args : list gval) : hostM gval :=
  v <- invoke (bru_call bru "hasVar") [dump (arg 0 args)] ;;
  ret (marshallToVm v).

Definition getVar (args : list gval) : hostM gval :=
  v <- invoke (bru_call bru "getVar") [dump (arg 0 args)] ;;
  ret (marshallToVm v).

Definition setVar (args : list gval) : hostM gval :=
  _ <- invoke (bru_call bru "setVar")
         [dump (arg 0 args); dump (arg 1 args)] ;;
  ret VUndefined.

Definition deleteVar (args : list gval) : hostM gval :=
  _ <- invoke (bru_call bru "deleteVar") [dump (arg 0 args)] ;;
  ret VUndefined.

Definition deleteAllVars (args : list gval) : hostM gval :=
  _ <- invoke (bru_call bru "deleteAllVars") [] ;;
  ret VUndefined.

Definition setNextRequest (args : list gval) : hostM gval :=
  _ <- invoke (bru_call bru "setNextRequest") [dump (arg 0 args)] ;;
  ret VUndefined.

(** [bru?.runner?.op(...)]: the chain stops, yielding [undefined], when
    [bru.runner] is missing; [bru] itself is an object.  The call itself
    is not optional: a [runner] without the operation makes it throw. *)
Definition optional_runner_call (op : Runner H -> option (method H))
    (name : string) (args : list hval) : hostM hval :=
  match bru_runner bru with
  | None => ret VUndefined
  | Some runner =>
      match op runner with
      | Some m => invoke m args
      | None =>
          throw (JS.type_error ("bru.runner." ++ name ++ " is not a function"))
      end
  end.

Definition runnerSkipRequest (args : list gval) : hostM gval :=
  _ <- optional_runner_call Provider.skipRequest "skipRequest" [] ;;
  ret VUndefined.

Definition runnerStopExecution (args : list gval) : hostM gval :=
  _ <- optional_runner_call Provider.stopExecution "stopExecution" [] ;;
  ret VUndefined.

Definition runnerSetNextRequest (args : list gval) : hostM gval :=
  _ <- optional_runner_call Provider.setNextRequest "setNextRequest"
         [dump (arg 0 args)] ;;
  ret VUndefined.

Definition visualize (args : list gval) : hostM gval :=
  _ <- invoke (bru_call bru "visualize") [dump (arg 0 args)] ;;
  ret VUndefined.

Definition getSecretVar (args : list gval) : hostM gval :=
  v <- invoke (bru_call bru "getSecretVar") [dump (arg 0 args)] ;;
  ret (marshallToVm v).

Definition getRequestVar (args : list gval) : hostM gval :=
  v <- invoke (bru_call bru "getRequestVar") [dump (arg 0 args)] ;;
  ret (marshallToVm v).

Definition getFolderVar (args : list gval) : hostM gval :=
  v <- invoke (bru_call bru "getFolderVar") [dump (arg 0 args)] ;;
  ret (marshallToVm v).

Definition getCollectionVar (args : list gval) : hostM gval :=
  v <- invoke (bru_call bru "getCollectionVar") [dump (arg 0 args)] ;;
  ret (marshallToVm v).

(** *** Asynchronous members: the bridge to a guest promise *)

(** What a reaction does to the guest promise made by [vm.newPromise]:
    [promise.resolve(v)] or [promise.reject(e)]. *)
Inductive settlement : Type :=
| Resolve (v : gval)
| Reject (e : gval).

(** A [.then] or [.catch] callback: it settles the guest promise, or
    throws before doing so. *)
Definition reaction : Type := hval -> settlement + hval.

(** [hostPromise.then(on_then).catch(on_catch)]: the second callback
    also receives what the first one throws.  [None]: neither
    [promise.resolve] nor [promise.reject] is ever called. *)
Definition then_catch (on_then on_catch : reaction) (o : outcome Host)
  : option settlement :=
  let caught (e : hval) :=
    match on_catch e with
    | inl s => Some s
    | inr _ => None
    end in
  match o with
  | Fulfilled v =>
      match on_then v with
      | inl s => Some s
      | inr e => caught e
      end
  | Rejected e => caught e
  | Pending => None
  end.

(** The state the guest promise ends in. *)
Definition settled (s : option settlement) : outcome Guest :=
  match s with
  | Some (Resolve v) => Fulfilled v
  | Some (Reject e) => Rejected e
  | None => Pending
  end.

(** The object literal [{ message: err.message }]. *)
Definition message_of (err : hval) : hval + hval :=
  match JS.get_message err with
  | Normal m => inl (VObj [("message", m)])
  | Throw e => inr e
  end.

(** The body shared by the asynchronous members:
    [const promise = vm.newPromise();
     op.then(on_then).catch(on_catch);
     promise.settled.then(vm.runtime.executePendingJobs);
     return promise.handle].
    The guest receives the handle of a promise that ends the way the
    reactions settle it; when the reaction attached to
    [promise.settled] runs is the subject of [Loop] below. *)
Definition bridge (on_then on_catch : reaction) (op : outcome Host * H)
  : reply * H :=
  (Promises (settled (then_catch on_then on_catch (fst op))), snd op).

Definition getTestResults_then : reaction :=
  fun results => inl (Resolve (marshallToVm (cleanJson results))).

Definition getTestResults_catch : reaction :=
  fun err =>
    match message_of err with
    | inl o => inl (Resolve (marshallToVm (cleanJson o)))
    | inr e => inr e
    end.

Definition getTestResults (args : list gval) : H -> reply * H :=
  fun h =>
    bridge getTestResults_then getTestResults_catch
      (bru_async bru "getTestResults" [] h).

Definition getAssertionResults_then : reaction :=
  fun results => inl (Resolve (marshallToVm (cleanJson results))).

Definition getAssertionResults_catch : reaction :=
  fun err =>
    match message_of err with
    | inl o => inl (Resolve (marshallToVm (cleanJson o)))
    | inr e => inr e
    end.

Definition getAssertionResults (args : list gval) : H -> reply * H :=
  fun h =>
    bridge getAssertionResults_then getAssertionResults_catch
      (bru_async bru "getAssertionResults" [] h).

Definition runRequest_then : reaction :=
  fun response => inl (Resolve (marshallToVm (cleanCircularJson response))).

Definition runRequest_catch : reaction :=
  fun err =>
    match message_of err with
    | inl o => inl (Resolve (marshallToVm (cleanJson o)))
    | inr e => inr e
    end.

Definition runRequestHandle (args : list gval) : H -> reply * H :=
  fun h =>
    bridge runRequest_then runRequest_catch
      (bru_async bru "runRequest" [dump (arg 0 args)] h).

Definition sendRequest_then : reaction :=
  fun response => inl (Resolve (marshallToVm (cleanCircularJson response))).

Definition sendRequest_catch : reaction :=
  fun err => inl (Reject (marshallToVm (cleanJson err))).

Definition sendRequestHandle (args : list gval) : H -> reply * H :=
  fun h =>
    bridge sendRequest_then sendRequest_catch
      (bru_async bru "sendRequest" [dump (arg 0 args)] h).

(** [sleep]: the timer callback resolves the promise with the string
    [slept]; how long that takes is not part of the model. *)
Definition sleep (args : list gval) : H -> reply * H :=
  fun h => (Promises (settled (Some (Resolve (VStr "slept")))), h).

End WithProvider.

End Wrappers.

(** ** The guest interpreter as seen through its handles *)

Module Vm.

(** The closures passed to [vm.newFunction], one tag for each, named after
    the variable that holds the function handle in the source. *)
Inductive hostfn : Type :=
| Fn_cwd | Fn_getEnvName | Fn_getCollectionName | Fn_getProcessEnv
| Fn_interpolate | Fn_hasEnvVar | Fn_getEnvVar | Fn_setEnvVar
| Fn_deleteEnvVar | Fn_getGlobalEnvVar | Fn_getOauth2CredentialVar
| Fn_setGlobalEnvVar | Fn_hasVar | Fn_getVar | Fn_setVar | Fn_deleteVar
| Fn_deleteAllVars | Fn_setNextRequest
| Fn_runnerSkipRequest | Fn_runnerStopExecution | Fn_runnerSetNextRequest
| Fn_visualize | Fn_getSecretVar | Fn_getRequestVar | Fn_getFolderVar
| Fn_getCollectionVar
| Fn_getTestResults | Fn_getAssertionResults | Fn_runRequestHandle
| Fn_sendRequestHandle | Fn_sleep.

(** Functions defined by code evaluated inside the guest. *)
Inductive scriptfn : Type :=
| SendRequest.

(** A reference to a guest object: [vm.global], or an object of the guest
    heap.  A handle is such a reference held by the host. *)
Inductive ref : Type :=
| Global
| Obj (id : nat).

Inductive gobject : Type :=
| Plain (props : list (string * ref))
| HostFunction (name : string) (f : hostfn)
| ScriptFunction (f : scriptfn).

(** Creation and disposal of handles, as issued by the host. *)
Inductive event : Type :=
| NewObject (id : nat)
| NewFunction (name : string) (id : nat)
| EvalResult (id : nat)
| Dispose (id : nat).

(** [trace] lists the events, latest first. *)
Record state : Type := {
  next : nat;
  heap : gmap nat gobject;
  global : list (string * ref);
  trace : list event
}.

Definition VM (A : Type) : Type := state -> A * state.

Definition ret {A} (a : A) : VM A := fun s => (a, s).
Definition bind {A B} (m : VM A) (k : A -> VM B) : VM B :=
  fun s => let (a, s') := m s in k a s'.
Definition exec {A} (m : VM A) (s : state) : state := snd (m s).

Notation "x <- m ;; k" := (bind m (fun x => k))
  (at level 100, m at next level, right associativity).
Notation "m ;; k" := (bind m (fun _ => k))
  (at level 100, right associativity).

(** Allocation of a guest object together with the handle to it. *)
Definition alloc (o : gobject) (ev : nat -> event) : VM ref :=
  fun s =>
    (Obj (next s),
     {| next := S (next s);
        heap := <[next s := o]> (heap s);
        global := global s;
        trace := ev (next s) :: trace s |}).

Definition newObject : VM ref := alloc (Plain []) NewObject.

Definition newFunction (name : string) (f : hostfn) : VM ref :=
  alloc (HostFunction name f) (NewFunction name).

Definition with_prop (key : string) (value : ref) (o : gobject) : gobject :=
  match o with
  | Plain props => Plain (JS.assoc_set key value props)
  | other => other
  end.

Definition setProp (target : ref) (key : string) (value : ref) : VM unit :=
  fun s =>
    (tt,
     match target with
     | Global =>
         {| next := next s; heap := heap s;
            global := JS.assoc_set key value (global s);
            trace := trace s |}
     | Obj id =>
         {| next := next s;
            heap := alter (with_prop key value) id (heap s);
            global := global s;
            trace := trace s |}
     end).

(** [handle.dispose()]; [vm.global] is not owned by the caller. *)
Definition dispose (h : ref) : VM unit :=
  fun s =>
    (tt,
     match h with
     | Global => s
     | Obj id =>
         {| next := next s; heap := heap s; global := global s;
            trace := Dispose id :: trace s |}
     end).

(** [handle.consume(f)]: run [f] on the handle, then dispose it. *)
Definition consume (h : ref) (f : ref -> VM unit) : VM unit :=
  f h ;; dispose h.

(** Member access from a reference, through the heap. *)
Definition get (s : state) (from : ref) (key : string) : option ref :=
  match from with
  | Global => JS.assoc key (global s)
  | Obj id =>
      match heap s !! id with
      | Some (Plain props) => JS.assoc key props
      | _ => None
      end
  end.

Fixpoint resolve (s : state) (from : ref) (path : list string) : option ref :=
  match path with
  | [] => Some from
  | key :: path' =>
      match get s from key with
      | Some r => resolve s r path'
      | None => None
      end
  end.

(** The object found at [globalThis.path], if any. *)
Definition member (s : state) (path : list string) : option gobject :=
  match resolve s Global path with
  | Some (Obj id) => heap s !! id
  | _ => None
  end.

(** Guest programs handed to [vm.evalCode]: the shim evaluates a single
    assignment of a function to a member of an object reached from
    [globalThis]. *)
Inductive script : Type :=
| AssignMember (object_path : list string) (key : string) (f : scriptfn).

(** [vm.evalCode(code)] returns a result that holds a handle: to the value
    of the program, or to the error it threw (here the [TypeError] of an
    assignment to a member of [undefined]). *)
Definition evalCode (code : script) : VM ref :=
  fun s =>
    match code with
    | AssignMember object_path key f =>
        match resolve s Global object_path with
        | Some target =>
            (fn <- alloc (ScriptFunction f) EvalResult ;;
             setProp target key fn ;;
             ret fn) s
        | None => alloc (Plain []) EvalResult s
        end
    end.

(** A newly created interpreter. *)
Definition fresh : state :=
  {| next := 0; heap := ∅; global := []; trace := [] |}.

(** Counting the events of a trace. *)
Definition is_creation (e : event) : bool :=
  match e with
  | NewObject _ | NewFunction _ _ => true
  | _ => false
  end.

Definition is_disposal (e : event) : bool :=
  match e with
  | Dispose _ => true
  | _ => false
  end.

Definition disposes (id : nat) (e : event) : bool :=
  match e with
  | Dispose i => Nat.eqb i id
  | _ => false
  end.

Fixpoint count (p : event -> bool) (t : list event) : nat :=
  match t with
  | [] => 0
  | e :: t' => (if p e then 1 else 0) + count p t'
  end.

End Vm.

(** ** The shim builder *)

Module Shim.
Import Vm.

(** The program evaluated at the end of the builder:
    [globalThis.bru.sendRequest = async (requestConfig, callback) => ...]. *)
Definition bootstrap : script :=
  AssignMember ["bru"] "sendRequest" SendRequest.

(** [addBruShimToContext(vm, bru)], statement by statement.  The closures
    capture [bru]; a member is stored as the tag of its closure, and
    [closure bru] below gives the closure itself.  The result of
    [vm.evalCode] is dropped, as in the source. *)
Definition addBruShimToContext : VM unit :=
  bruObject <- newObject ;;
  bruRunnerObject <- newObject ;;

  cwd <- newFunction "cwd" Fn_cwd ;;
  setProp bruObject "cwd" cwd ;;
  dispose cwd ;;

  getEnvName <- newFunction "getEnvName" Fn_getEnvName ;;
  setProp bruObject "getEnvName" getEnvName ;;
  dispose getEnvName ;;

  getCollectionName <- newFunction "getCollectionName" Fn_getCollectionName ;;
  setProp bruObject "getCollectionName" getCollectionName ;;
  dispose getCollectionName ;;

  getProcessEnv <- newFunction "getProcessEnv" Fn_getProcessEnv ;;
  setProp bruObject "getProcessEnv" getProcessEnv ;;
  dispose getProcessEnv ;;

  interpolate <- newFunction "interpolate" Fn_interpolate ;;
  setProp bruObject "interpolate" interpolate ;;
  dispose interpolate ;;

  hasEnvVar <- newFunction "hasEnvVar" Fn_hasEnvVar ;;
  setProp bruObject "hasEnvVar" hasEnvVar ;;
  dispose hasEnvVar ;;

  getEnvVar <- newFunction "getEnvVar" Fn_getEnvVar ;;
  setProp bruObject "getEnvVar" getEnvVar ;;
  dispose getEnvVar ;;

  setEnvVar <- newFunction "setEnvVar" Fn_setEnvVar ;;
  setProp bruObject "setEnvVar" setEnvVar ;;
  dispose setEnvVar ;;

  deleteEnvVar <- newFunction "deleteEnvVar" Fn_deleteEnvVar ;;
  setProp bruObject "deleteEnvVar" deleteEnvVar ;;
  dispose deleteEnvVar ;;

  getGlobalEnvVar <- newFunction "getGlobalEnvVar" Fn_getGlobalEnvVar ;;
  setProp bruObject "getGlobalEnvVar" getGlobalEnvVar ;;
  dispose getGlobalEnvVar ;;

  getOauth2CredentialVar <- newFunction "getOauth2CredentialVar" Fn_getOauth2CredentialVar ;;
  setProp bruObject "getOauth2CredentialVar" getOauth2CredentialVar ;;
  dispose getOauth2CredentialVar ;;

  setGlobalEnvVar <- newFunction "setGlobalEnvVar" Fn_setGlobalEnvVar ;;
  setProp bruObject "setGlobalEnvVar" setGlobalEnvVar ;;
  dispose setGlobalEnvVar ;;

  hasVar <- newFunction "hasVar" Fn_hasVar ;;
  setProp bruObject "hasVar" hasVar ;;
  dispose hasVar ;;

  getVar <- newFunction "getVar" Fn_getVar ;;
  setProp bruObject "getVar" getVar ;;
  dispose getVar ;;

  setVar <- newFunction "setVar" Fn_setVar ;;
  setProp bruObject "setVar" setVar ;;
  dispose setVar ;;

  deleteVar <- newFunction "deleteVar" Fn_deleteVar ;;
  setProp bruObject "deleteVar" deleteVar ;;
  dispose deleteVar ;;

  deleteAllVars <- newFunction "deleteAllVars" Fn_deleteAllVars ;;
  setProp bruObject "deleteAllVars" deleteAllVars ;;
  dispose deleteAllVars ;;

  setNextRequest <- newFunction "setNextRequest" Fn_setNextRequest ;;
  setProp bruObject "setNextRequest" setNextRequest ;;
  dispose setNextRequest ;;

  runnerSkipRequest <- newFunction "skipRequest" Fn_runnerSkipRequest ;;
  setProp bruRunnerObject "skipRequest" runnerSkipRequest ;;
  dispose runnerSkipRequest ;;

  runnerStopExecution <- newFunction "stopExecution" Fn_runnerStopExecution ;;
  setProp bruRunnerObject "stopExecution" runnerStopExecution ;;
  dispose runnerStopExecution ;;

  runnerSetNextRequest <- newFunction "setNextRequest" Fn_runnerSetNextRequest ;;
  setProp bruRunnerObject "setNextRequest" runnerSetNextRequest ;;
  dispose runnerSetNextRequest ;;

  visualize <- newFunction "visualize" Fn_visualize ;;
  setProp bruObject "visualize" visualize ;;
  dispose visualize ;;

  getSecretVar <- newFunction "getSecretVar" Fn_getSecretVar ;;
  setProp bruObject "getSecretVar" getSecretVar ;;
  dispose getSecretVar ;;

  getRequestVar <- newFunction "getRequestVar" Fn_getRequestVar ;;
  setProp bruObject "getRequestVar" getRequestVar ;;
  dispose getRequestVar ;;

  getFolderVar <- newFunction "getFolderVar" Fn_getFolderVar ;;
  setProp bruObject "getFolderVar" getFolderVar ;;
  dispose getFolderVar ;;

  getCollectionVar <- newFunction "getCollectionVar" Fn_getCollectionVar ;;
  setProp bruObject "getCollectionVar" getCollectionVar ;;
  dispose getCollectionVar ;;

  getTestResults <- newFunction "getTestResults" Fn_getTestResults ;;
  consume getTestResults (fun handle => setProp bruObject "getTestResults" handle) ;;

  getAssertionResults <- newFunction "getAssertionResults" Fn_getAssertionResults ;;
  consume getAssertionResults (fun handle => setProp bruObject "getAssertionResults" handle) ;;

  runRequestHandle <- newFunction "runRequest" Fn_runRequestHandle ;;
  consume runRequestHandle (fun handle => setProp bruObject "runRequest" handle) ;;

  sendRequestHandle <- newFunction "_sendRequest" Fn_sendRequestHandle ;;
  consume sendRequestHandle (fun handle => setProp bruObject "_sendRequest" handle) ;;

  sleep <- newFunction "sleep" Fn_sleep ;;
  consume sleep (fun handle => setProp bruObject "sleep" handle) ;;

  setProp bruObject "runner" bruRunnerObject ;;
  setProp Global "bru" bruObject ;;
  dispose bruObject ;;

  _ <- evalCode bootstrap ;;
  ret tt.

End Shim.

(** ** Calls made by the guest *)

Module Guest.
Import Provider Vm Wrappers.

Section WithProvider.

Context {H : Type}.
Variable bru : Bru H.

(** The closure behind each tag. *)
Definition closure (f : hostfn) (args : list gval) : H -> reply * H :=
  match f with
  | Fn_cwd => run (cwd bru args)
  | Fn_getEnvName => run (getEnvName bru args)
  | Fn_getCollectionName => run (getCollectionName bru args)
  | Fn_getProcessEnv => run (getProcessEnv bru args)
  | Fn_interpolate => run (interpolate bru args)
  | Fn_hasEnvVar => run (hasEnvVar bru args)
  | Fn_getEnvVar => run (getEnvVar bru args)
  | Fn_setEnvVar => run (setEnvVar bru args)
  | Fn_deleteEnvVar => run (deleteEnvVar bru args)
  | Fn_getGlobalEnvVar => run (getGlobalEnvVar bru args)
  | Fn_getOauth2CredentialVar => run (getOauth2CredentialVar bru args)
  | Fn_setGlobalEnvVar => run (setGlobalEnvVar bru args)
  | Fn_hasVar => run (hasVar bru args)
  | Fn_getVar => run (getVar bru args)
  | Fn_setVar => run (setVar bru args)
  | Fn_deleteVar => run (deleteVar bru args)
  | Fn_deleteAllVars => run (deleteAllVars bru args)
  | Fn_setNextRequest => run (setNextRequest bru args)
  | Fn_runnerSkipRequest => run (runnerSkipRequest bru args)
  | Fn_runnerStopExecution => run (runnerStopExecution bru args)
  | Fn_runnerSetNextRequest => run (runnerSetNextRequest bru args)
  | Fn_visualize => run (visualize bru args)
  | Fn_getSecretVar => run (getSecretVar bru args)
  | Fn_getRequestVar => run (getRequestVar bru args)
  | Fn_getFolderVar => run (getFolderVar bru args)
  | Fn_getCollectionVar => run (getCollectionVar bru args)
  | Fn_getTestResults => getTestResults bru args
  | Fn_getAssertionResults => getAssertionResults bru args
  | Fn_runRequestHandle => runRequestHandle bru args
  | Fn_sendRequestHandle => sendRequestHandle bru args
  | Fn_sleep => sleep args
  end.

(** A host exception re-thrown inside the guest: the guest sees an error
    with the name and the message of the host one. *)
Definition rethrow (e : hval) : gval :=
  match e with
  | VError name message => VError name message
  | VStr message => VError "Error" message
  | other =>
      VError "Error"
        (match JS.get_message other with
         | Normal (VStr message) => message
         | _ => ""
         end)
  end.

(** [await] applied to the result of a call. *)
Definition awaited (r : reply) : outcome Guest :=
  match r with
  | Returns v => Fulfilled v
  | Raises e => Rejected (rethrow e)
  | Promises o => o
  end.

(** [await globalThis.path(args)] for a member installed by the host;
    calling anything else is a [TypeError]. *)
Definition await_member (s : state) (path : list string)
    (args : list gval) (h : H) : outcome Guest * H :=
  match member s path with
  | Some (HostFunction _ f) =>
      let (r, h') := closure f args h in (awaited r, h')
  | _ => (Rejected (JS.type_error "not a function"), h)
  end.

(** Guest functions written by the script author: [call_guest f args]
    is what [await f(...args)] comes to, a thrown error and a rejected
    promise alike being [Rejected]. *)
Variable call_guest : gval -> list gval -> H -> outcome Guest * H.

(** One invocation of a guest function: the callee and its arguments. *)
Definition invocation : Type := gval * list gval.

(** [await callback(a, b)] inside a [try] whose [catch] returns
    [Promise.reject(error)]; without an error the [async] function runs
    to its end and its promise is fulfilled with [undefined]. *)
Definition guarded_callback (callback a b : gval) (h : H)
  : (outcome Guest * list invocation) * H :=
  let (c, h') := call_guest callback [a; b] h in
  ((match c with
    | Fulfilled _ => Fulfilled VUndefined
    | Rejected error => Rejected error
    | Pending => Pending
    end,
    [(callback, [a; b])]), h').

(** The function installed by the bootstrap script as
    [globalThis.bru.sendRequest]: how the promise it returns ends, and
    the invocations of [callback] it made. *)
Definition sendRequest (s : state) (requestConfig callback : gval) (h : H)
  : (outcome Guest * list invocation) * H :=
  if negb (JS.truthy callback) then
    let (o, h') := await_member s ["bru"; "_sendRequest"] [requestConfig] h in
    ((o, []), h')
  else
    let (o, h') := await_member s ["bru"; "_sendRequest"] [requestConfig] h in
    match o with
    | Fulfilled response => guarded_callback callback VNull response h'
    | Rejected error =>
        match JS.json_roundtrip error with
        | Normal normalized => guarded_callback callback normalized VNull h'
        | Throw err => ((Rejected err, []), h')
        end
    | Pending => ((Pending, []), h')
    end.

(** [await globalThis.path(args)] for any member of the surface. *)
Definition call (s : state) (path : list string) (args : list gval) (h : H)
  : (outcome Guest * list invocation) * H :=
  match member s path with
  | Some (ScriptFunction SendRequest) =>
      sendRequest s (arg 0 args) (arg 1 args) h
  | _ =>
      let (o, h') := await_member s path args h in ((o, []), h')
  end.

End WithProvider.

End Guest.

(** ** Settle, then drain: the two job queues *)

Module Loop.
Import Wrappers.

(** Jobs of the host, run first in, first out.  [React p s] is the [.then]
    or [.catch] callback attached by an asynchronous member to the host
    operation behind guest promise [p]: it settles [p] as [s], or throws
    before doing so ([None]).  [Drain] is [vm.runtime.executePendingJobs],
    the reaction every asynchronous member attaches to [promise.settled]. *)
Inductive job : Type :=
| React (p : nat) (s : option settlement)
| Drain.

(** What an observer of the queues sees. *)
Inductive step : Type :=
| Settled (p : nat)
| Drained (ran : list nat).

(** [timers]: the callbacks [sleep] handed to [setTimeout], in the order
    they fire; a timer callback starts only when no job of the host is
    waiting.  [suspended]: guest continuations awaiting a promise that is
    not settled yet.  [guest_jobs]: continuations of settled promises, which
    the guest runs only when the host asks it to.  [log]: latest first. *)
Record state : Type := {
  host_jobs : list job;
  timers : list nat;
  suspended : list nat;
  guest_jobs : list nat;
  log : list step
}.

Definition idle : state :=
  {| host_jobs := []; timers := []; suspended := []; guest_jobs := [];
     log := [] |}.

(** The guest calls an asynchronous member and awaits the handle it
    returns: [const promise = vm.newPromise(); ...; return promise.handle]. *)
Definition issue (p : nat) (st : state) : state :=
  {| host_jobs := host_jobs st;
     timers := timers st;
     suspended := suspended st ++ [p];
     guest_jobs := guest_jobs st;
     log := log st |}.

(** The host operation behind [p] ends as [o]: the callback attached with
    [.then(on_then).catch(on_catch)] becomes a job of the host. *)
Definition host_settles (p : nat) (on_then on_catch : reaction)
    (o : outcome Host) (st : state) : state :=
  match o with
  | Pending => st
  | _ =>
      {| host_jobs := host_jobs st ++ [React p (then_catch on_then on_catch o)];
         timers := timers st;
         suspended := suspended st;
         guest_jobs := guest_jobs st;
         log := log st |}
  end.

(** [sleep]: [setTimeout(() => promise.resolve(...), t)] for promise [p]. *)
Definition set_timer (p : nat) (st : state) : state :=
  {| host_jobs := host_jobs st;
     timers := timers st ++ [p];
     suspended := suspended st;
     guest_jobs := guest_jobs st;
     log := log st |}.

Definition remove (p : nat) (l : list nat) : list nat :=
  List.filter (fun q => negb (Nat.eqb p q)) l.

(** [promise.resolve(v)] or [promise.reject(e)] on guest promise [p], with
    [rest] the host jobs still waiting: the continuation of [p] becomes a
    pending job of the guest, and [promise.settled] is resolved, so that
    its reaction [Drain] joins the host queue behind [rest]. *)
Definition settle (p : nat) (rest : list job) (st : state) : state :=
  {| host_jobs := rest ++ [Drain];
     timers := timers st;
     suspended := remove p (suspended st);
     guest_jobs := guest_jobs st ++ [p];
     log := Settled p :: log st |}.

(** Running the oldest job of the host or, when none is waiting, the next
    timer callback.  [Drain] runs every pending job of the guest. *)
Definition run_job (st : state) : state :=
  match host_jobs st with
  | [] =>
      match timers st with
      | [] => st
      | p :: later =>
          settle p []
            {| host_jobs := []; timers := later; suspended := suspended st;
               guest_jobs := guest_jobs st; log := log st |}
      end
  | React p (Some _) :: rest => settle p rest st
  | React p None :: rest =>
      {| host_jobs := rest;
         timers := timers st;
         suspended := suspended st;
         guest_jobs := guest_jobs st;
         log := log st |}
  | Drain :: rest =>
      {| host_jobs := rest;
         timers := timers st;
         suspended := suspended st;
         guest_jobs := [];
         log := Drained (guest_jobs st) :: log st |}
  end.

(** The states the queues can be in: asynchronous members are called, host
    operations end, jobs run, in any interleaving. *)
Inductive reachable : state -> Prop :=
| reach_idle : reachable idle
| reach_issue p st : reachable st -> reachable (issue p st)
| reach_settles p on_then on_catch o st :
    reachable st -> reachable (host_settles p on_then on_catch o st)
| reach_timer p st : reachable st -> reachable (set_timer p st)
| reach_run st : reachable st -> reachable (run_job st).

Fixpoint run_jobs (fuel : nat) (st : state) : state :=
  match fuel with
  | 0 => st
  | S fuel' => run_jobs fuel' (run_job st)
  end.

(** Jobs still to run, counting the [Drain] each settlement will add. *)
Fixpoint work (q : list job) : nat :=
  match q with
  | [] => 0
  | React _ (Some _) :: q' => 2 + work q'
  | _ :: q' => 1 + work q'
  end.

Definition load (st : state) : nat :=
  work (host_jobs st) + 2 * length (timers st).

(** Every pending job of the guest has a [Drain] coming. *)
Definition drain_due (st : state) : Prop :=
  guest_jobs st = [] \/ In Drain (host_jobs st).

(** In a log read latest first: no settlement has another settlement
    right after it, that is, before the drain it asked for. *)
Fixpoint drained_at_once (l : list step) : bool :=
  match l with
  | Settled _ :: ((Settled _ :: _) as l') => false
  | _ :: l' => drained_at_once l'
  | [] => true
  end.

End Loop.

(** ** Providers and callbacks used as test inputs *)

Module Examples.
Import Provider.

(** Host state of the examples: the operations called so far. *)
Definition calls : Type := list (string * list hval).

Definition record (name : string) (result : completion Host) : method calls :=
  fun args h => (result, h ++ [(name, args)]).

(** A provider whose promise-returning operations all end as [o]; its
    runner has the three run-control operations. *)
Definition provider (o : outcome Host) : Bru calls :=
  {| bru_call := fun name => record name (Normal VUndefined);
     bru_async := fun name args h => (o, h ++ [(name, args)]);
     bru_runner :=
       Some {| skipRequest := Some (record "runner.skipRequest" (Normal VUndefined));
               stopExecution := Some (record "runner.stopExecution" (Normal VUndefined));
               setNextRequest := Some (record "runner.setNextRequest" (Normal VUndefined)) |} |}.

(** The same provider without a [runner] member. *)
Definition no_runner (o : outcome Host) : Bru calls :=
  {| bru_call := bru_call (provider o);
     bru_async := bru_async (provider o);
     bru_runner := None |}.

(** A provider whose [runner] has no operation at all. *)
Definition empty_runner (o : outcome Host) : Bru calls :=
  {| bru_call := bru_call (provider o);
     bru_async := bru_async (provider o);
     bru_runner :=
       Some {| skipRequest := None; stopExecution := None;
               setNextRequest := None |} |}.

(** Guest callbacks: one that returns, one that throws [e]. *)
Definition returning : gval -> list gval -> calls -> outcome Guest * calls :=
  fun _ _ h => (Fulfilled VUndefined, h).

Definition throwing (e : gval) : gval -> list gval -> calls -> outcome Guest * calls :=
  fun _ _ h => (Rejected e, h).

Definition requestConfig : gval :=
  VObj [("url", VStr "https://echo.usebruno.com"); ("method", VStr "POST")].

Definition response : hval :=
  VObj [("status", VNum 200); ("data", VStr "ping")].

Definition timeout : hval :=
  VObj [("message", VStr "timeout of 1000ms exceeded"); ("code", VStr "ECONNABORTED")].

(** An error value without a [message] member. *)
Definition bare_failure : hval := VObj [("code", VNum 500)].

(** The interpreter after the builder has run on a new one. *)
Definition session : Vm.state := Vm.exec Shim.addBruShimToContext Vm.fresh.

(** A script calls [bru.getTestResults()], [bru.getAssertionResults()] and
    [bru.sleep(10)] before awaiting any of them; the two host operations
    have ended, so both reactions are jobs of the host, and the timer has
    yet to fire. *)
Definition two_settlements : Loop.state :=
  Loop.set_timer 2
    (Loop.host_settles 1
       Wrappers.getAssertionResults_then Wrappers.getAssertionResults_catch
       (Fulfilled (VArr []))
       (Loop.host_settles 0
          Wrappers.getTestResults_then Wrappers.getTestResults_catch
          (Fulfilled (VArr []))
          (Loop.issue 2 (Loop.issue 1 (Loop.issue 0 Loop.idle))))).

End Examples.

(** ** The surface as a table, and notions used to state further properties *)

Module Surface.
Import Vm.

(** The members of [bru] that are host functions, in the order of the
    [vm.setProp] calls of the builder: the key, which is also the name
    handed to [vm.newFunction], and the closure. *)
Definition bru_functions : list (string * hostfn) :=
  [("cwd", Fn_cwd); ("getEnvName", Fn_getEnvName);
   ("getCollectionName", Fn_getCollectionName);
   ("getProcessEnv", Fn_getProcessEnv); ("interpolate", Fn_interpolate);
   ("hasEnvVar", Fn_hasEnvVar); ("getEnvVar", Fn_getEnvVar);
   ("setEnvVar", Fn_setEnvVar); ("deleteEnvVar", Fn_deleteEnvVar);
   ("getGlobalEnvVar", Fn_getGlobalEnvVar);
   ("getOauth2CredentialVar", Fn_getOauth2CredentialVar);
   ("setGlobalEnvVar", Fn_setGlobalEnvVar); ("hasVar", Fn_hasVar);
   ("getVar", Fn_getVar); ("setVar", Fn_setVar); ("deleteVar", Fn_deleteVar);
   ("deleteAllVars", Fn_deleteAllVars); ("setNextRequest", Fn_setNextRequest);
   ("visualize", Fn_visualize); ("getSecretVar", Fn_getSecretVar);
   ("getRequestVar", Fn_getRequestVar); ("getFolderVar", Fn_getFolderVar);
   ("getCollectionVar", Fn_getCollectionVar);
   ("getTestResults", Fn_getTestResults);
   ("getAssertionResults", Fn_getAssertionResults);
   ("runRequest", Fn_runRequestHandle);
   ("_sendRequest", Fn_sendRequestHandle); ("sleep", Fn_sleep)].

(** The members of [bru.runner]. *)
Definition runner_functions : list (string * hostfn) :=
  [("skipRequest", Fn_runnerSkipRequest);
   ("stopExecution", Fn_runnerStopExecution);
   ("setNextRequest", Fn_runnerSetNextRequest)].

(** Every key of [bru]: the host functions, the nested object and the
    function defined by the bootstrap script. *)
Definition bru_keys : list string :=
  map fst bru_functions ++ ["runner"; "sendRequest"].

Definition runner_keys : list string := map fst runner_functions.

(** The members whose closure has no [return] statement. *)
Definition setters : list (string * hostfn) :=
  [("setEnvVar", Fn_setEnvVar); ("setGlobalEnvVar", Fn_setGlobalEnvVar);
   ("setVar", Fn_setVar); ("deleteVar", Fn_deleteVar);
   ("deleteAllVars", Fn_deleteAllVars); ("setNextRequest", Fn_setNextRequest);
   ("visualize", Fn_visualize)].

(** Data that holds no [undefined], no function and no native error. *)
Fixpoint plain_data {r} (v : jsval r) : bool :=
  match v with
  | VNull | VBool _ | VNum _ | VStr _ => true
  | VArr elems => forallb plain_data elems
  | VObj props => forallb (fun kv => plain_data (snd kv)) props
  | VUndefined | VFun _ | VError _ _ => false
  end.

(** Counting the observations of a log and the drains still queued. *)
Definition settlements (l : list Loop.step) : nat :=
  length (List.filter
            (fun e => match e with Loop.Settled _ => true | _ => false end) l).

Definition drains (l : list Loop.step) : nat :=
  length (List.filter
            (fun e => match e with Loop.Drained _ => true | _ => false end) l).

Definition drains_queued (q : list Loop.job) : nat :=
  length (List.filter
            (fun j => match j with Loop.Drain => true | _ => false end) q).

(** Settlements seen so far are the drains run plus the drains waiting. *)
Definition drains_balanced (st : Loop.state) : Prop :=
  settlements (Loop.log st)
  = drains (Loop.log st) + drains_queued (Loop.host_jobs st).

(** A provider that keeps runtime variables in a store: [setVar] binds a
    name, [getVar] reads the latest binding ([undefined] without one);
    every other operation returns [undefined]. *)
Definition store : Type := list (string * hval).

Definition store_provider : Provider.Bru store :=
  {| Provider.bru_call := fun name args h =>
       if String.eqb name "setVar" then
         match args with
         | [VStr key; value] => (Normal VUndefined, (key, value) :: h)
         | _ => (Throw (JS.type_error "Variable name must be a string"), h)
         end
       else if String.eqb name "getVar" then
         match args with
         | [VStr key] =>
             (Normal (match JS.assoc key h with
                      | Some value => value
                      | None => VUndefined
                      end), h)
         | _ => (Normal VUndefined, h)
         end
       else (Normal VUndefined, h);
     Provider.bru_async := fun _ _ h => (Pending, h);
     Provider.bru_runner := None |}.

Definition no_callbacks : gval -> list gval -> store -> outcome Guest * store :=
  fun _ _ h => (Pending, h).

End Surface.

(** ** The request transformer

    The first module held in
    [packages/bruno-converters/src/utils/send-request-transformer.js]
    rewrites the syntax tree of a Postman call [pm.sendRequest(options,
    callback)] into a call of [bru.sendRequest].  It works on the nodes of
    a syntax tree through the jscodeshift API [j]. *)

Module Transformer.

(** The value of a [Literal] node. *)
Inductive lit : Type :=
| LStr (s : string)
| LNum (n : Z)
| LBool (b : bool)
| LNull.

(** A member of an object expression: a property with its key and value
    nodes, or a spread element, which has no key. *)
Inductive member_of (N : Type) : Type :=
| Property (key value : N)
| SpreadElement (argument : N).

Arguments Property {N} key value.
Arguments SpreadElement {N} argument.

(** Syntax nodes, by the fields the transformer reads or writes.  [Leaf]
    is a node without child nodes: an identifier has a [name], a literal a
    [value], and a key renamed by the transformer has both, whatever its
    [type].  A hole of an array ([null] among its [elements]) is [None].
    [Other] is a
    node of any other type (statements, operators, arrow functions, ...)
    with its child nodes in the order a traversal visits them; the [type]
    of a [Leaf] or of an [Other] is not one of the five types that have a
    constructor of their own. *)
Unset Elimination Schemes.
Inductive node : Type :=
| Leaf (type : string) (name : option string) (value : option lit)
| ObjectExpression (properties : list (member_of node))
| ArrayExpression (elements : list (option node))
| FunctionExpression (id : option node) (params body : list node)
    (generator async : bool)
| MemberExpression (object property : node) (computed : bool)
| CallExpression (callee : node) (arguments : list node)
| Other (type : string) (children : list node).
Set Elimination Schemes.

Abbreviation member := (member_of node).

(** The transformer throws a [TypeError] of the language (a property read
    on [undefined] or [null], a call of something that is not a function),
    or the error of a builder of [j] handed a field it does not accept. *)
Inductive failure : Type :=
| TypeError
| BuilderError.

Definition result (A : Type) : Type := A + failure.

Definition ok {A} (a : A) : result A := inl a.
Definition fail {A} (e : failure) : result A := inr e.
Definition bind {A B} (m : result A) (k : A -> result B) : result B :=
  match m with
  | inl a => k a
  | inr e => inr e
  end.

Notation "x <- m ;; k" := (bind m (fun x => k))
  (at level 100, m at next level, right associativity).

(** [list.forEach] and [list.map] with a callback that may throw. *)
Definition mapM {A B} (f : A -> result B) : list A -> result (list B) :=
  fix each (l : list A) : result (list B) :=
    match l with
    | [] => ok []
    | x :: l' => y <- f x ;; ys <- each l' ;; ok (y :: ys)
    end.

Fixpoint foldM {A S} (f : S -> A -> result S) (l : list A) (s : S)
  : result S :=
  match l with
  | [] => ok s
  | x :: l' => s' <- f s x ;; foldM f l' s'
  end.

(** [list.find(pred)]: the first element that satisfies [pred], with its
    index; [pred] runs on the elements before it, and may throw there. *)
Fixpoint find_from {A} (i : nat) (pred : A -> result bool) (l : list A)
  : result (option (nat * A)) :=
  match l with
  | [] => ok None
  | x :: l' =>
      b <- pred x ;;
      if b then ok (Some (i, x)) else find_from (S i) pred l'
  end.

Definition find {A} (pred : A -> result bool) (l : list A)
  : result (option (nat * A)) :=
  find_from 0 pred l.

(** [list.filter(pred)]. *)
Fixpoint filterM {A} (pred : A -> result bool) (l : list A)
  : result (list A) :=
  match l with
  | [] => ok []
  | x :: l' =>
      b <- pred x ;;
      rest <- filterM pred l' ;;
      ok (if b then x :: rest else rest)
  end.

(** [node.type], [node.name] and [node.value]; a field the node does not
    have reads as [undefined]. *)
Definition type_of (n : node) : string :=
  match n with
  | Leaf type _ _ => type
  | ObjectExpression _ => "ObjectExpression"
  | ArrayExpression _ => "ArrayExpression"
  | FunctionExpression _ _ _ _ _ => "FunctionExpression"
  | MemberExpression _ _ _ => "MemberExpression"
  | CallExpression _ _ => "CallExpression"
  | Other type _ => type
  end.

Definition name_of (n : node) : option string :=
  match n with
  | Leaf _ name _ => name
  | _ => None
  end.

Definition value_of (n : node) : option lit :=
  match n with
  | Leaf _ _ value => value
  | _ => None
  end.

(** The builders of [j] used by the transformer.  [j.identifier] and
    [j.literal] refuse [undefined]. *)
Definition identifier (name : option string) : result node :=
  match name with
  | Some n => ok (Leaf "Identifier" (Some n) None)
  | None => fail BuilderError
  end.

Definition literal (value : option lit) : result node :=
  match value with
  | Some v => ok (Leaf "Literal" None (Some v))
  | None => fail BuilderError
  end.

(** [j.property('init', key, value)]. *)
Definition property (key value : node) : member := Property key value.

Definition objectExpression (properties : list member) : node :=
  ObjectExpression properties.

(** [j.memberExpression(object, property)]: not computed. *)
Definition memberExpression (object property : node) : node :=
  MemberExpression object property false.

Definition callExpression (callee : node) (arguments : list node) : node :=
  CallExpression callee arguments.

(** [j.functionExpression(null, params, j.blockStatement(body))]: neither
    a generator nor asynchronous. *)
Definition functionExpression (params body : list node) : node :=
  FunctionExpression None params body false false.

Definition is_string (v : option lit) (s : string) : bool :=
  match v with
  | Some (LStr x) => String.eqb x s
  | _ => false
  end.

Definition is_name (n : option string) (s : string) : bool :=
  match n with
  | Some x => String.eqb x s
  | None => false
  end.

(** [p.key.name === k || p.key.value === k]: a spread element has no
    [key]. *)
Definition has_key (k : string) (p : member) : result bool :=
  match p with
  | Property key _ => ok (is_name (name_of key) k || is_string (value_of key) k)
  | SpreadElement _ => fail TypeError
  end.

(** [prop.key.name = k; prop.key.value = k]. *)
Definition rename (key : node) (k : string) : node :=
  match key with
  | Leaf type _ _ => Leaf type (Some k) (Some (LStr k))
  | other => other
  end.

(** One round of the loop of [convertArrayToObject]. *)
Definition convert_element (properties : list member) (elem : option node)
  : result (list member) :=
  match elem with
  | None => fail TypeError
  | Some (ObjectExpression elem_properties) =>
      keyProp <- find (has_key "key") elem_properties ;;
      valueProp <- find (has_key "value") elem_properties ;;
      match keyProp, valueProp with
      | Some (_, Property _ key_value), Some (_, Property _ value_value) =>
          key <- literal (value_of key_value) ;;
          ok (properties ++ [property key value_value])
      | Some (_, SpreadElement _), Some _ => fail TypeError
      | _, _ => ok properties
      end
  | Some _ => ok properties
  end.

(** [convertArrayToObject(j, arrayValue)]. *)
Definition convertArrayToObject (arrayValue : node) : result node :=
  match arrayValue with
  | ArrayExpression elements =>
      properties <- foldM convert_element elements [] ;;
      ok (objectExpression properties)
  | _ => ok (objectExpression [])
  end.

Section WithStrings.

(** [String.prototype.toLowerCase], on the text of a header name. *)
Variable toLowerCase : string -> string.

(** The filter of [addOrUpdateHeader]:
    [p.key.type !== 'Literal' ||
     p.key.value.toLowerCase() !== headerName.toLowerCase()]. *)
Definition other_header (headerName : string) (p : member) : result bool :=
  match p with
  | Property key _ =>
      if negb (String.eqb (type_of key) "Literal") then ok true
      else
        match value_of key with
        | Some (LStr v) =>
            ok (negb (String.eqb (toLowerCase v) (toLowerCase headerName)))
        | _ => fail TypeError
        end
  | SpreadElement _ => fail TypeError
  end.

(** [addOrUpdateHeader(j, requestOptions, headerName, headerValue)], on
    the properties of [requestOptions]. *)
Definition addOrUpdateHeader (properties : list member)
    (headerName headerValue : string) : result (list member) :=
  found <- find (has_key "headers") properties ;;
  header <- (name <- literal (Some (LStr headerName)) ;;
             value <- literal (Some (LStr headerValue)) ;;
             ok (property name value)) ;;
  match found with
  | None =>
      key <- identifier (Some "headers") ;;
      ok (properties ++ [property key (objectExpression [header])])
  | Some (i, Property key (ObjectExpression headers)) =>
      kept <- filterM (other_header headerName) headers ;;
      ok (<[i := Property key (ObjectExpression (kept ++ [header]))]> properties)
  | Some (i, Property key _) =>
      ok (<[i := Property key (ObjectExpression [header])]> properties)
  | Some (_, SpreadElement _) => fail TypeError
  end.

(** One round of the loop of [transformHeaders]. *)
Definition transform_header (prop : member) : result member :=
  found <- has_key "header" prop ;;
  if found then
    match prop with
    | Property key (ArrayExpression elements) =>
        value <- convertArrayToObject (ArrayExpression elements) ;;
        ok (Property (rename key "headers") value)
    | Property key value => ok (Property (rename key "headers") value)
    | SpreadElement _ => fail TypeError
    end
  else ok prop.

(** [transformHeaders(j, requestOptions)]: the options after the call. *)
Definition transformHeaders (requestOptions : node) : result node :=
  match requestOptions with
  | ObjectExpression properties =>
      properties' <- mapM transform_header properties ;;
      ok (ObjectExpression properties')
  | other => ok other
  end.

Definition is_array (n : node) : bool :=
  match n with
  | ArrayExpression _ => true
  | _ => false
  end.

(** [(p.key.name === k || p.key.value === k) &&
     p.value.type === 'ArrayExpression']. *)
Definition has_array (k : string) (p : member) : result bool :=
  found <- has_key k p ;;
  ok (found && match p with
               | Property _ value => is_array value
               | SpreadElement _ => false
               end).

(** The two modes that turn an array of pairs into an object and set the
    content type. *)
Definition pairs_to_data (properties : list member) (i : nat) (key : node)
    (bodyProps : list member) (mode contentType : string)
  : result (list member) :=
  found <- find (has_array mode) bodyProps ;;
  match found with
  | Some (_, Property _ pairs) =>
      data <- convertArrayToObject pairs ;;
      addOrUpdateHeader (<[i := Property (rename key "data") data]> properties)
        "Content-Type" contentType
  | _ => ok properties
  end.

(** One round of the loop of [transformBody], on the property at index
    [i]: the properties of [requestOptions] after it. *)
Definition transform_body_at (properties : list member) (i : nat)
  : result (list member) :=
  match properties !! i with
  | None => ok properties
  | Some prop =>
      found <- has_key "body" prop ;;
      if found then
        match prop with
        | Property key (ObjectExpression bodyProps) =>
            modeProp <- find (has_key "mode") bodyProps ;;
            match modeProp with
            | Some (_, Property _ mode) =>
                if String.eqb (type_of mode) "Literal" then
                  if is_string (value_of mode) "raw" then
                    rawProp <- find (has_key "raw") bodyProps ;;
                    match rawProp with
                    | Some (_, Property _ raw) =>
                        ok (<[i := Property (rename key "data") raw]> properties)
                    | _ => ok properties
                    end
                  else if is_string (value_of mode) "urlencoded" then
                    pairs_to_data properties i key bodyProps "urlencoded"
                      "application/x-www-form-urlencoded"
                  else if is_string (value_of mode) "formdata" then
                    pairs_to_data properties i key bodyProps "formdata"
                      "multipart/form-data"
                  else ok properties
                else ok properties
            | _ => ok properties
            end
        | _ => ok properties
        end
      else ok properties
  end.

(** [transformBody(j, requestOptions)]: the options after the call.  The
    loop runs over the properties the object had when it started; a
    [headers] property pushed by [addOrUpdateHeader] is not visited. *)
Definition transformBody (requestOptions : node) : result node :=
  match requestOptions with
  | ObjectExpression properties =>
      properties' <- foldM transform_body_at (seq 0 (length properties))
                       properties ;;
      ok (ObjectExpression properties')
  | other => ok other
  end.

(** *** The callback *)

(** What [responsePropertyMap[name]] finds: the translation of a Postman
    response property, something inherited from [Object.prototype], which
    is not a string, or nothing. *)
Inductive entry : Type :=
| Mapped (bruProperty : string)
| Inherited
| Missing.

Definition object_prototype : list string :=
  ["constructor"; "hasOwnProperty"; "isPrototypeOf"; "propertyIsEnumerable";
   "toLocaleString"; "toString"; "valueOf"; "__proto__";
   "__defineGetter__"; "__defineSetter__"; "__lookupGetter__";
   "__lookupSetter__"].

Definition responsePropertyMap (name : option string) : entry :=
  match name with
  | None => Missing
  | Some n =>
      if String.eqb n "json" then Mapped "getBody"
      else if String.eqb n "text" then Mapped "getBody"
      else if String.eqb n "code" then Mapped "getStatus()"
      else if String.eqb n "status" then Mapped "statusText"
      else if String.eqb n "responseTime" then Mapped "getResponseTime()"
      else if String.eqb n "statusText" then Mapped "statusText"
      else if String.eqb n "headers" then Mapped "getHeaders()"
      else if existsb (String.eqb n) object_prototype then Inherited
      else Missing
  end.

(** [s.endsWith(suffix)] and [s.slice(0, -k)]. *)
Definition endsWith (s suffix : string) : bool :=
  (String.length suffix <=? String.length s)%nat
  && String.eqb
       (String.substring (String.length s - String.length suffix)
          (String.length suffix) s)
       suffix.

Definition slice_end (s : string) (k : nat) : string :=
  String.substring 0 (String.length s - k) s.

Definition same_name (a b : option string) : bool :=
  match a, b with
  | Some x, Some y => String.eqb x y
  | None, None => true
  | _, _ => false
  end.

(** The filter given to [find]: a member expression whose object is the
    identifier [responseVarName]. *)
Definition matches (responseVarName : option string) (n : node) : bool :=
  match n with
  | MemberExpression object _ _ =>
      String.eqb (type_of object) "Identifier"
      && same_name (name_of object) responseVarName
  | _ => false
  end.

(** The test of the [forEach] callback on a node that [find] selected:
    [property.type === 'Identifier' && responsePropertyMap[property.name]],
    then [bruProperty.endsWith], which something inherited does not have. *)
Definition translation (responseVarName : option string) (n : node)
  : result (option string) :=
  match n with
  | MemberExpression object property _ =>
      if matches responseVarName n
         && String.eqb (type_of property) "Identifier"
      then
        match responsePropertyMap (name_of property) with
        | Mapped bruProperty => ok (Some bruProperty)
        | Inherited => fail TypeError
        | Missing => ok None
        end
      else ok None
  | _ => ok None
  end.

(** The two replacements: [res.getBody] and [res.getStatus()]. *)
Definition property_access (responseVarName : option string)
    (bruProperty : string) : result node :=
  object <- identifier responseVarName ;;
  property <- identifier (Some bruProperty) ;;
  ok (memberExpression object property).

Definition method_call (responseVarName : option string)
    (bruProperty : string) : result node :=
  object <- identifier responseVarName ;;
  property <- identifier (Some (slice_end bruProperty 2)) ;;
  ok (callExpression (memberExpression object property) []).

(** [j(callbackBody).find(j.MemberExpression, filter).forEach(...)], on
    one node of the body: the node that stands in its place afterwards.
    [find] collects the member expressions before [forEach] replaces any:
    the ones among the arguments of a call that is replaced as a whole are
    still run through the callback, where it may throw, though the
    arguments themselves are gone from the tree. *)
Fixpoint translate (responseVarName : option string) (n : node) {struct n}
  : result node :=
  match n with
  | Leaf _ _ _ => ok n
  | ObjectExpression properties =>
      properties' <-
        mapM (fun p : member =>
                match p with
                | Property key value =>
                    key' <- translate responseVarName key ;;
                    value' <- translate responseVarName value ;;
                    ok (Property key' value')
                | SpreadElement argument =>
                    argument' <- translate responseVarName argument ;;
                    ok (SpreadElement argument')
                end) properties ;;
      ok (ObjectExpression properties')
  | ArrayExpression elements =>
      elements' <-
        mapM (fun elem : option node =>
                match elem with
                | Some x => x' <- translate responseVarName x ;; ok (Some x')
                | None => ok None
                end) elements ;;
      ok (ArrayExpression elements')
  | FunctionExpression id params body generator async =>
      params' <- mapM (translate responseVarName) params ;;
      body' <- mapM (translate responseVarName) body ;;
      ok (FunctionExpression id params' body' generator async)
  | MemberExpression object property computed =>
      found <- translation responseVarName n ;;
      match found with
      | Some bruProperty =>
          if endsWith bruProperty "()"
          then method_call responseVarName bruProperty
          else property_access responseVarName bruProperty
      | None =>
          object' <- translate responseVarName object ;;
          property' <- translate responseVarName property ;;
          ok (MemberExpression object' property' computed)
      end
  | CallExpression callee arguments =>
      found <- translation responseVarName callee ;;
      let in_place :=
        callee' <- translate responseVarName callee ;;
        arguments' <- mapM (translate responseVarName) arguments ;;
        ok (CallExpression callee' arguments') in
      match found with
      | Some bruProperty =>
          if endsWith bruProperty "()"
          then
            call <- method_call responseVarName bruProperty ;;
            _ <- mapM (translate responseVarName) arguments ;;
            ok call
          else in_place
      | None => in_place
      end
  | Other type children =>
      children' <- mapM (translate responseVarName) children ;;
      ok (Other type children')
  end.

(** *** What is left of the Postman response *)

(** The properties of a Postman response that a Bruno response does not
    have under that name. *)
Definition postman_only : list string :=
  ["json"; "text"; "code"; "status"; "responseTime"; "headers"].

(** [n] is [res.name], or [res[name]] with an identifier between the
    brackets, for such a property. *)
Definition reads_postman (responseVarName : option string) (n : node)
  : bool :=
  match n with
  | MemberExpression object property _ =>
      matches responseVarName n
      && String.eqb (type_of property) "Identifier"
      && match name_of property with
         | Some name => existsb (String.eqb name) postman_only
         | None => false
         end
  | _ => false
  end.

(** Some node of the tree reads such a property. *)
Fixpoint stale (responseVarName : option string) (n : node) {struct n}
  : bool :=
  reads_postman responseVarName n
  || match n with
     | Leaf _ _ _ => false
     | ObjectExpression properties =>
         existsb (fun p : member =>
                    match p with
                    | Property key value =>
                        stale responseVarName key
                        || stale responseVarName value
                    | SpreadElement argument => stale responseVarName argument
                    end) properties
     | ArrayExpression elements =>
         existsb (fun elem : option node =>
                    match elem with
                    | Some x => stale responseVarName x
                    | None => false
                    end) elements
     | FunctionExpression _ params body _ _ =>
         existsb (stale responseVarName) params
         || existsb (stale responseVarName) body
     | MemberExpression object property _ =>
         stale responseVarName object || stale responseVarName property
     | CallExpression callee arguments =>
         stale responseVarName callee
         || existsb (stale responseVarName) arguments
     | Other _ children => existsb (stale responseVarName) children
     end.

(** Whatever the translation makes of [n] reads no such property. *)
Definition fresh_after (responseVarName : option string) (n : node) : Prop :=
  forall n', translate responseVarName n = ok n' ->
             stale responseVarName n' = false.

(** The name of the parameter at index [i] when it is an identifier. *)
Definition param_name (params : list node) (i : nat) (default : string)
  : option string :=
  match params !! i with
  | Some param =>
      if String.eqb (type_of param) "Identifier" then name_of param
      else Some default
  | None => Some default
  end.

(** [transformCallback(j, callback)]; [None] is [null]. *)
Definition transformCallback (callback : option node) : result (option node) :=
  match callback with
  | Some (FunctionExpression _ params body _ _) =>
      let responseVarName := param_name params 1 "response" in
      let errorVarName := param_name params 0 "error" in
      body' <- mapM (translate responseVarName) body ;;
      error <- identifier errorVarName ;;
      response <- identifier responseVarName ;;
      ok (Some (functionExpression [error; response] body'))
  | _ => ok None
  end.

(** [sendRequestTransformer(path, j)], given [path.parent.value]; [None]
    is [undefined]. *)
Definition sendRequestTransformer (callExpr : node) : result (option node) :=
  match callExpr with
  | CallExpression _ args =>
      match args with
      | [] => ok None
      | requestOptions :: _ =>
          let callback := args !! 1 in
          requestOptions' <-
            match requestOptions with
            | ObjectExpression _ =>
                with_headers <- transformHeaders requestOptions ;;
                transformBody with_headers
            | other => ok other
            end ;;
          match callback with
          | Some _ =>
              transformedCallback <- transformCallback callback ;;
              callee <- identifier (Some "bru.sendRequest") ;;
              ok (Some (callExpression callee
                          match transformedCallback with
                          | Some f => [requestOptions'; f]
                          | None => [requestOptions']
                          end))
          | None =>
              callee <- identifier (Some "bru.sendRequest") ;;
              ok (Some (callExpression callee [requestOptions']))
          end
      end
  | _ => ok None
  end.

End WithStrings.

End Transformer.

(** ** Postman request options, as the transformer meets them *)

Module Postman.
Import Transformer.

Definition ident (name : string) : node := Leaf "Identifier" (Some name) None.
Definition str (s : string) : node := Leaf "Literal" None (Some (LStr s)).

(** An entry [{ key: k, value: v, ... }] of a header or form array, with
    whatever members follow the two ([disabled], [description], ...). *)
Definition pair : Type := lit * node * list member.

Definition pair_entry (e : pair) : option node :=
  let '(k, v, others) := e in
  Some (ObjectExpression
          (Property (ident "key") (Leaf "Literal" None (Some k))
             :: Property (ident "value") v :: others)).

(** The property the entry becomes. *)
Definition pair_property (e : pair) : member :=
  let '(k, v, _) := e in Property (Leaf "Literal" None (Some k)) v.

(** [{ mode: 'raw', raw: text }]. *)
Definition raw_body (text : node) : node :=
  ObjectExpression [Property (ident "mode") (str "raw");
                    Property (ident "raw") text].

(** [{ mode: mode, [mode]: [entries] }], for [urlencoded] and [formdata]. *)
Definition pairs_body (mode : string) (entries : list pair) : node :=
  ObjectExpression [Property (ident "mode") (str mode);
                    Property (ident mode)
                      (ArrayExpression (map pair_entry entries))].

(** [{ 'Content-Type': contentType }] as [addOrUpdateHeader] builds it. *)
Definition content_type (contentType : string) : member :=
  Property (ident "headers")
    (ObjectExpression [Property (str "Content-Type") (str contentType)]).

(** A property the body transformation has nothing to do with. *)
Definition unrelated (p : member) : Prop :=
  has_key "body" p = ok false /\ has_key "headers" p = ok false.

(** Lower case of the letters of the Latin alphabet, byte by byte. *)
Definition lower_ascii (c : Ascii.ascii) : Ascii.ascii :=
  let n := Ascii.nat_of_ascii c in
  if ((65 <=? n) && (n <=? 90))%nat then Ascii.ascii_of_nat (n + 32) else c.

Fixpoint lower (s : string) : string :=
  match s with
  | EmptyString => EmptyString
  | String c s' => String (lower_ascii c) (lower s')
  end.

(** [pm.sendRequest({ url, header: [...], body: { mode: 'urlencoded',
    ... } }, function (err, res) { use(res.code, res.json()) })]. *)
Definition options : node :=
  ObjectExpression
    [Property (ident "url") (str "https://echo.usebruno.com");
     Property (ident "header")
       (ArrayExpression
          [pair_entry (LStr "content-type", str "text/plain", []);
           pair_entry (LStr "X-Trace", str "1",
                       [Property (ident "disabled")
                          (Leaf "Literal" None (Some (LBool true)))])]);
     Property (ident "body")
       (pairs_body "urlencoded" [(LStr "a", str "1", [])])].

Definition callback : node :=
  FunctionExpression None [ident "err"; ident "res"]
    [Other "ExpressionStatement"
       [CallExpression (ident "use")
          [MemberExpression (ident "res") (ident "code") false;
           CallExpression
             (MemberExpression (ident "res") (ident "json") false) []]]]
    false false.

Definition call : node :=
  CallExpression (MemberExpression (ident "pm") (ident "sendRequest") false)
    [options; callback].

End Postman.

(** * Properties *)

(** ** Structural induction on values *)

Section ValueInduction.

Context {r : realm} (P : jsval r -> Prop).
Hypothesis P_undefined : P VUndefined.
Hypothesis P_null : P VNull.
Hypothesis P_bool : forall b, P (VBool b).
Hypothesis P_num : forall n, P (VNum n).
Hypothesis P_str : forall s, P (VStr s).
Hypothesis P_arr : forall elems, Forall P elems -> P (VArr elems).
Hypothesis P_obj :
  forall props, Forall (fun kv => P (snd kv)) props -> P (VObj props).
Hypothesis P_fun : forall f, P (VFun f).
Hypothesis P_error : forall n m, P (VError n m).

Fixpoint jsval_ind (v : jsval r) : P v :=
  match v with
  | VUndefined => P_undefined
  | VNull => P_null
  | VBool b => P_bool b
  | VNum n => P_num n
  | VStr s => P_str s
  | VArr elems =>
      P_arr elems
        ((fix all (l : list (jsval r)) : Forall P l :=
            match l with
            | [] => List.Forall_nil P
            | x :: l' => List.Forall_cons P x l' (jsval_ind x) (all l')
            end) elems)
  | VObj props =>
      P_obj props
        ((fix all (l : list (string * jsval r))
            : Forall (fun kv => P (snd kv)) l :=
            match l with
            | [] => List.Forall_nil _
            | kv :: l' =>
                List.Forall_cons _ kv l' (jsval_ind (snd kv)) (all l')
            end) props)
  | VFun f => P_fun f
  | VError n m => P_error n m
  end.

End ValueInduction.

(** ** The codec on JSON-safe data *)

Section CodecFacts.
Import JS Codec.

Lemma transfer_arr {a b} (elems : list (jsval a)) :
  transfer (b:=b) (VArr elems) = VArr (map transfer elems).
Proof.
  reflexivity.
Qed.

Lemma transfer_obj {a b} (props : list (string * jsval a)) :
  transfer (b:=b) (VObj props)
  = VObj (map (fun kv => (fst kv, transfer (snd kv))) props).
Proof.
  simpl. f_equal. induction props as [|[k x] l IH]; simpl; congruence.
Qed.

Lemma json_safe_convertible {r} (v : jsval r) :
  json_safe v = true -> convertible v = true.
Proof.
  induction v as [ | | | | | elems IH | props IH | | ] using jsval_ind;
    simpl; intros Hs; try done.
  - induction IH as [|x l Hx _ IHl]; simpl in *; [done|].
    apply andb_true_iff in Hs as [H1 H2].
    rewrite Hx, IHl; done.
  - apply andb_true_iff in Hs as [_ Hs].
    induction IH as [|kv l Hx _ IHl]; simpl in *; [done|].
    apply andb_true_iff in Hs as [H1 H2].
    rewrite Hx, IHl; done.
Qed.

Lemma transfer_keys {a b} (props : list (string * jsval a)) :
  map fst (map (fun kv => (fst kv, transfer (b:=b) (snd kv))) props)
  = map fst props.
Proof. induction props as [|[k x] l IH]; simpl; congruence. Qed.

Lemma transfer_json_safe {a b} (v : jsval a) :
  json_safe v = true -> json_safe (transfer (b:=b) v) = true.
Proof.
  induction v as [ | | | | | elems IH | props IH | | ] using jsval_ind;
    intros Hs; try done.
  - rewrite transfer_arr. simpl in *.
    induction IH as [|x l Hx _ IHl]; simpl in *; [done|].
    apply andb_true_iff in Hs as [H1 H2].
    rewrite Hx, IHl; done.
  - rewrite transfer_obj. simpl in *.
    apply andb_true_iff in Hs as [Hk Hs].
    rewrite transfer_keys, Hk. simpl.
    clear Hk. induction IH as [|kv l Hx _ IHl]; simpl in *; [done|].
    apply andb_true_iff in Hs as [H1 H2].
    rewrite Hx, IHl; done.
Qed.

Lemma transfer_back {a b} (v : jsval a) :
  json_safe v = true -> transfer (transfer (b:=b) v) = v.
Proof.
  induction v as [ | | | | | elems IH | props IH | | ] using jsval_ind;
    intros Hs; try done.
  - rewrite !transfer_arr. f_equal. simpl in Hs.
    induction IH as [|x l Hx _ IHl]; simpl in *; [done|].
    apply andb_true_iff in Hs as [H1 H2].
    rewrite Hx, IHl; done.
  - rewrite !transfer_obj. f_equal. simpl in Hs.
    apply andb_true_iff in Hs as [_ Hs].
    induction IH as [|[k x] l Hx _ IHl]; simpl in *; [done|].
    apply andb_true_iff in Hs as [H1 H2].
    rewrite Hx, IHl; done.
Qed.

Lemma convert_safe {a b} (v : jsval a) :
  json_safe v = true -> convert (b:=b) v = transfer v.
Proof.
  intros Hs. unfold convert. by rewrite (json_safe_convertible v Hs).
Qed.

End CodecFacts.

(** C8.  A JSON-safe value (scalars, arrays, string-keyed objects with
    distinct keys) marshalled from the host to the guest and dumped back to
    the host is equal to the original: same members, same key order, same
    array order. *)
Theorem codec_roundtrip (v : hval) :
  JS.json_safe v = true ->
  Codec.dump (Codec.marshallToVm v) = v.
Proof.
  intros Hs. unfold Codec.dump, Codec.marshallToVm.
  rewrite (convert_safe v Hs).
  rewrite convert_safe by (by apply transfer_json_safe).
  by apply transfer_back.
Qed.

Lemma codec_roundtrip_witness :
  Codec.dump (Codec.marshallToVm
    (VObj [("b", VArr [VNum 2; VStr "x"; VNull]); ("a", VBool true)]))
  = VObj [("b", VArr [VNum 2; VStr "x"; VNull]); ("a", VBool true)].
Proof. apply codec_roundtrip. reflexivity. Defined.

Lemma assoc_set_same {A} k (a : A) l :
  JS.assoc k (JS.assoc_set k a l) = Some a.
Proof.
  induction l as [|[k' a'] l IH]; simpl.
  - by rewrite String.eqb_refl.
  - destruct (String.eqb k k') eqn:E; simpl; rewrite ?String.eqb_refl, ?E; done.
Qed.

(** ** What the builder leaves in the interpreter *)

(** Symbolic execution of the builder from any state of the interpreter. *)
Ltac run_builder :=
  cbv beta iota delta
    [Shim.addBruShimToContext Vm.bind Vm.newObject Vm.newFunction Vm.alloc
     Vm.setProp Vm.dispose Vm.consume Vm.exec Vm.ret Vm.evalCode
     Shim.bootstrap Vm.resolve Vm.get snd fst
     Vm.next Vm.heap Vm.global Vm.trace];
  rewrite assoc_set_same;
  cbv beta iota delta
    [Vm.bind Vm.alloc Vm.setProp Vm.exec Vm.ret snd fst
     Vm.next Vm.heap Vm.global Vm.trace].

Ltac heap_lookup :=
  repeat first
    [ rewrite lookup_alter_ne by lia
    | rewrite lookup_insert_ne by lia
    | rewrite lookup_alter_eq
    | rewrite lookup_insert_eq ].

Section BuilderFacts.
Import Vm Shim.

Lemma built_global s :
  global (exec addBruShimToContext s)
  = JS.assoc_set "bru" (Obj (next s)) (global s).
Proof. destruct s as [n hp gl tr]. run_builder. reflexivity. Qed.

Lemma built_next s : next (exec addBruShimToContext s) = 34 + next s.
Proof. destruct s as [n hp gl tr]. run_builder. reflexivity. Qed.

(** The object installed as [globalThis.bru]. *)
Lemma built_bru_object s :
  heap (exec addBruShimToContext s) !! next s
  = Some (Plain
      [("cwd", Obj (2 + next s)); ("getEnvName", Obj (3 + next s));
       ("getCollectionName", Obj (4 + next s));
       ("getProcessEnv", Obj (5 + next s));
       ("interpolate", Obj (6 + next s)); ("hasEnvVar", Obj (7 + next s));
       ("getEnvVar", Obj (8 + next s)); ("setEnvVar", Obj (9 + next s));
       ("deleteEnvVar", Obj (10 + next s));
       ("getGlobalEnvVar", Obj (11 + next s));
       ("getOauth2CredentialVar", Obj (12 + next s));
       ("setGlobalEnvVar", Obj (13 + next s));
       ("hasVar", Obj (14 + next s)); ("getVar", Obj (15 + next s));
       ("setVar", Obj (16 + next s)); ("deleteVar", Obj (17 + next s));
       ("deleteAllVars", Obj (18 + next s));
       ("setNextRequest", Obj (19 + next s));
       ("visualize", Obj (23 + next s));
       ("getSecretVar", Obj (24 + next s));
       ("getRequestVar", Obj (25 + next s));
       ("getFolderVar", Obj (26 + next s));
       ("getCollectionVar", Obj (27 + next s));
       ("getTestResults", Obj (28 + next s));
       ("getAssertionResults", Obj (29 + next s));
       ("runRequest", Obj (30 + next s));
       ("_sendRequest", Obj (31 + next s)); ("sleep", Obj (32 + next s));
       ("runner", Obj (1 + next s)); ("sendRequest", Obj (33 + next s))]).
Proof.
  destruct s as [n hp gl tr]. run_builder.
  heap_lookup. vm_compute. reflexivity.
Qed.

(** The object installed as [globalThis.bru.runner]. *)
Lemma built_runner_object s :
  heap (exec addBruShimToContext s) !! (1 + next s)
  = Some (Plain
      [("skipRequest", Obj (20 + next s));
       ("stopExecution", Obj (21 + next s));
       ("setNextRequest", Obj (22 + next s))]).
Proof.
  destruct s as [n hp gl tr]. run_builder.
  heap_lookup. vm_compute. reflexivity.
Qed.

Lemma built_functions s :
  let hp := heap (exec addBruShimToContext s) in
  hp !! (19 + next s) = Some (HostFunction "setNextRequest" Fn_setNextRequest)
  /\ hp !! (20 + next s) = Some (HostFunction "skipRequest" Fn_runnerSkipRequest)
  /\ hp !! (21 + next s) = Some (HostFunction "stopExecution" Fn_runnerStopExecution)
  /\ hp !! (22 + next s) = Some (HostFunction "setNextRequest" Fn_runnerSetNextRequest)
  /\ hp !! (28 + next s) = Some (HostFunction "getTestResults" Fn_getTestResults)
  /\ hp !! (29 + next s) = Some (HostFunction "getAssertionResults" Fn_getAssertionResults)
  /\ hp !! (30 + next s) = Some (HostFunction "runRequest" Fn_runRequestHandle)
  /\ hp !! (31 + next s) = Some (HostFunction "_sendRequest" Fn_sendRequestHandle)
  /\ hp !! (33 + next s) = Some (ScriptFunction SendRequest).
Proof.
  destruct s as [n hp gl tr]. run_builder.
  repeat split; heap_lookup; reflexivity.
Qed.

Lemma built_members s :
  let s' := exec addBruShimToContext s in
  member s' ["bru"; "setNextRequest"]
    = Some (HostFunction "setNextRequest" Fn_setNextRequest)
  /\ member s' ["bru"; "skipRequest"] = None
  /\ member s' ["bru"; "stopExecution"] = None
  /\ member s' ["bru"; "runner"; "skipRequest"]
    = Some (HostFunction "skipRequest" Fn_runnerSkipRequest)
  /\ member s' ["bru"; "runner"; "stopExecution"]
    = Some (HostFunction "stopExecution" Fn_runnerStopExecution)
  /\ member s' ["bru"; "runner"; "setNextRequest"]
    = Some (HostFunction "setNextRequest" Fn_runnerSetNextRequest)
  /\ member s' ["bru"; "getTestResults"]
    = Some (HostFunction "getTestResults" Fn_getTestResults)
  /\ member s' ["bru"; "getAssertionResults"]
    = Some (HostFunction "getAssertionResults" Fn_getAssertionResults)
  /\ member s' ["bru"; "runRequest"]
    = Some (HostFunction "runRequest" Fn_runRequestHandle)
  /\ member s' ["bru"; "_sendRequest"]
    = Some (HostFunction "_sendRequest" Fn_sendRequestHandle)
  /\ member s' ["bru"; "sendRequest"] = Some (ScriptFunction SendRequest).
Proof.
  pose proof (built_global s) as Hg.
  pose proof (built_bru_object s) as Hb.
  pose proof (built_runner_object s) as Hr.
  pose proof (built_functions s) as Hf. cbv zeta in Hf.
  generalize dependent (exec addBruShimToContext s). intros s' Hg Hb Hr Hf.
  destruct Hf as (F19 & F20 & F21 & F22 & F28 & F29 & F30 & F31 & F33).
  cbv zeta. unfold member, resolve, get.
  rewrite Hg, assoc_set_same, Hb. simpl in *.
  rewrite Hr. simpl.
  rewrite F19, F20, F21, F22, F28, F29, F30, F31, F33. repeat split.
Qed.

End BuilderFacts.

(** C2.  The builder issues one disposal less than it creates object and
    function handles, from any state of the interpreter and whatever the
    provider: of the 33 handles made by [vm.newObject] and [vm.newFunction],
    32 are disposed, and the handle of the nested runner object
    ([bruRunnerObject]) is created but never disposed. *)
Theorem runner_handle_never_disposed (s : Vm.state) :
  let s' := Vm.exec Shim.addBruShimToContext s in
  Vm.count Vm.is_creation (Vm.trace s')
    = 33 + Vm.count Vm.is_creation (Vm.trace s)
  /\ Vm.count Vm.is_disposal (Vm.trace s')
    = 32 + Vm.count Vm.is_disposal (Vm.trace s)
  /\ In (Vm.NewObject (1 + Vm.next s)) (Vm.trace s')
  /\ Vm.count (Vm.disposes (1 + Vm.next s)) (Vm.trace s')
    = Vm.count (Vm.disposes (1 + Vm.next s)) (Vm.trace s).
Proof.
  destruct s as [n hp gl tr]. run_builder.
  split; [reflexivity|]. split; [reflexivity|]. split.
  - simpl. do 64 right. left. reflexivity.
  - cbn [Vm.count Vm.disposes Nat.add].
    repeat match goal with
           | |- context [Nat.eqb ?a ?b] =>
               replace (Nat.eqb a b) with false
                 by (symmetry; apply Nat.eqb_neq; lia)
           end.
    reflexivity.
Qed.

Import Provider.

(** ** Run control *)

(** C6.  The three run-control operations are members of [bru.runner],
    each forwarding to the operation of the same name of the provider's
    runner; at the top level of [bru] only [setNextRequest] exists, and it
    forwards to the provider's own [setNextRequest]; [bru.skipRequest] and
    [bru.stopExecution] are not defined. *)
Theorem run_control_surface {H : Type} (bru : Bru H) (s : Vm.state)
    (runner : Runner H) (skip stop next : method H) :
  bru_runner bru = Some runner ->
  Provider.skipRequest runner = Some skip ->
  Provider.stopExecution runner = Some stop ->
  Provider.setNextRequest runner = Some next ->
  let s' := Vm.exec Shim.addBruShimToContext s in
  let forwarded (r : completion Host * H) : Wrappers.reply * H :=
    (match fst r with
     | Normal _ => Wrappers.Returns VUndefined
     | Throw e => Wrappers.Raises e
     end, snd r) in
  (Vm.member s' ["bru"; "runner"; "skipRequest"]
     = Some (Vm.HostFunction "skipRequest" Vm.Fn_runnerSkipRequest)
   /\ forall args h,
       Guest.closure bru Vm.Fn_runnerSkipRequest args h = forwarded (skip [] h))
  /\ (Vm.member s' ["bru"; "runner"; "stopExecution"]
     = Some (Vm.HostFunction "stopExecution" Vm.Fn_runnerStopExecution)
   /\ forall args h,
       Guest.closure bru Vm.Fn_runnerStopExecution args h = forwarded (stop [] h))
  /\ (Vm.member s' ["bru"; "runner"; "setNextRequest"]
     = Some (Vm.HostFunction "setNextRequest" Vm.Fn_runnerSetNextRequest)
   /\ forall args h,
       Guest.closure bru Vm.Fn_runnerSetNextRequest args h
       = forwarded (next [Codec.dump (Wrappers.arg 0 args)] h))
  /\ (Vm.member s' ["bru"; "setNextRequest"]
     = Some (Vm.HostFunction "setNextRequest" Vm.Fn_setNextRequest)
   /\ forall args h,
       Guest.closure bru Vm.Fn_setNextRequest args h
       = forwarded (bru_call bru "setNextRequest" [Codec.dump (Wrappers.arg 0 args)] h))
  /\ Vm.member s' ["bru"; "skipRequest"] = None
  /\ Vm.member s' ["bru"; "stopExecution"] = None.
Proof.
  intros Hr Hskip Hstop Hnext s' forwarded.
  destruct (built_members s)
    as (M1 & M2 & M3 & M4 & M5 & M6 & _).
  fold s' in M1, M2, M3, M4, M5, M6.
  repeat split; try assumption; intros args h; subst forwarded;
    unfold Guest.closure, Wrappers.run, Wrappers.runnerSkipRequest,
      Wrappers.runnerStopExecution, Wrappers.runnerSetNextRequest,
      Wrappers.setNextRequest, Wrappers.optional_runner_call,
      Wrappers.bind, Wrappers.invoke, Wrappers.ret;
    rewrite ?Hr, ?Hskip, ?Hstop, ?Hnext; cbv beta iota.
  - by destruct (skip [] h) as [[v|e] h'].
  - by destruct (stop [] h) as [[v|e] h'].
  - by destruct (next _ h) as [[v|e] h'].
  - by destruct (bru_call bru _ _ h) as [[v|e] h'].
Qed.

(** The provider of the examples has all three operations: calling
    [bru.runner.stopExecution()] reaches the provider's runner. *)
Lemma run_control_surface_witness :
  Guest.closure (Examples.provider Pending) Vm.Fn_runnerStopExecution [] []
  = (Wrappers.Returns VUndefined, [("runner.stopExecution", [])]).
Proof.
  pose proof (run_control_surface (Examples.provider Pending) Vm.fresh
                _ _ _ _ eq_refl eq_refl eq_refl eq_refl) as Hs.
  cbv zeta in Hs.
  destruct Hs as (_ & (_ & Hstop) & _).
  rewrite Hstop. reflexivity.
Defined.

(** The claim as worded in the specification fails: the session built on
    a new interpreter has no [bru.skipRequest] and no
    [bru.stopExecution]. *)
Lemma top_level_run_control_missing :
  Vm.member Examples.session ["bru"; "skipRequest"] = None
  /\ Vm.member Examples.session ["bru"; "stopExecution"] = None
  /\ Vm.member Examples.session ["bru"; "runner"; "skipRequest"] <> None.
Proof. vm_compute. repeat split; discriminate. Qed.

(** ** Calls on the built surface *)

Section CallFacts.
Import Wrappers.

Context {H : Type}.
Variable bru : Bru H.
Variable call_guest : gval -> list gval -> H -> outcome Guest * H.
Variable s : Vm.state.

Let s' := Vm.exec Shim.addBruShimToContext s.

Lemma call_host_member path name f args h :
  Vm.member s' path = Some (Vm.HostFunction name f) ->
  Guest.call bru call_guest s' path args h
  = ((Guest.awaited (fst (Guest.closure bru f args h)), []),
     snd (Guest.closure bru f args h)).
Proof.
  intros Hm. unfold Guest.call, Guest.await_member. rewrite Hm.
  by destruct (Guest.closure bru f args h).
Qed.

Lemma call_getTestResults args h :
  Guest.call bru call_guest s' ["bru"; "getTestResults"] args h
  = ((settled (then_catch getTestResults_then getTestResults_catch
                 (fst (bru_async bru "getTestResults" [] h))), []),
     snd (bru_async bru "getTestResults" [] h)).
Proof.
  destruct (built_members s) as (_ & _ & _ & _ & _ & _ & M & _).
  by rewrite (call_host_member _ _ _ _ _ M).
Qed.

Lemma call_getAssertionResults args h :
  Guest.call bru call_guest s' ["bru"; "getAssertionResults"] args h
  = ((settled (then_catch getAssertionResults_then getAssertionResults_catch
                 (fst (bru_async bru "getAssertionResults" [] h))), []),
     snd (bru_async bru "getAssertionResults" [] h)).
Proof.
  destruct (built_members s) as (_ & _ & _ & _ & _ & _ & _ & M & _).
  by rewrite (call_host_member _ _ _ _ _ M).
Qed.

Lemma call_runRequest args h :
  Guest.call bru call_guest s' ["bru"; "runRequest"] args h
  = ((settled (then_catch runRequest_then runRequest_catch
                 (fst (bru_async bru "runRequest" [Codec.dump (arg 0 args)] h))), []),
     snd (bru_async bru "runRequest" [Codec.dump (arg 0 args)] h)).
Proof.
  destruct (built_members s) as (_ & _ & _ & _ & _ & _ & _ & _ & M & _).
  by rewrite (call_host_member _ _ _ _ _ M).
Qed.

Lemma call_raw_sendRequest args h :
  Guest.call bru call_guest s' ["bru"; "_sendRequest"] args h
  = ((settled (then_catch sendRequest_then sendRequest_catch
                 (fst (bru_async bru "sendRequest" [Codec.dump (arg 0 args)] h))), []),
     snd (bru_async bru "sendRequest" [Codec.dump (arg 0 args)] h)).
Proof.
  destruct (built_members s) as (_ & _ & _ & _ & _ & _ & _ & _ & _ & M & _).
  by rewrite (call_host_member _ _ _ _ _ M).
Qed.

Lemma await_raw_sendRequest requestConfig h :
  Guest.await_member bru s' ["bru"; "_sendRequest"] [requestConfig] h
  = (settled (then_catch sendRequest_then sendRequest_catch
                (fst (bru_async bru "sendRequest" [Codec.dump requestConfig] h))),
     snd (bru_async bru "sendRequest" [Codec.dump requestConfig] h)).
Proof.
  destruct (built_members s) as (_ & _ & _ & _ & _ & _ & _ & _ & _ & M & _).
  unfold Guest.await_member. fold s' in M. by rewrite M.
Qed.

Lemma call_sendRequest requestConfig callback h :
  Guest.call bru call_guest s' ["bru"; "sendRequest"] [requestConfig; callback] h
  = Guest.sendRequest bru call_guest s' requestConfig callback h.
Proof.
  destruct (built_members s) as (_ & _ & _ & _ & _ & _ & _ & _ & _ & _ & M).
  unfold Guest.call. fold s' in M. by rewrite M.
Qed.

End CallFacts.

(** ** Calls on a provider without run control *)

(** C10.  Without a runner member on the provider, calling
    [bru.runner.skipRequest()], [bru.runner.stopExecution()] or
    [bru.runner.setNextRequest(name)] does nothing and returns [undefined]:
    the closures return without touching the host state, and the guest's
    calls are fulfilled with [undefined] rather than rejected. *)
Theorem runner_calls_without_runner {H : Type} (bru : Bru H)
    (call_guest : gval -> list gval -> H -> outcome Guest * H)
    (s : Vm.state) (args : list gval) (h : H) :
  bru_runner bru = None ->
  let s' := Vm.exec Shim.addBruShimToContext s in
  (Guest.closure bru Vm.Fn_runnerSkipRequest args h = (Wrappers.Returns VUndefined, h)
   /\ Guest.closure bru Vm.Fn_runnerStopExecution args h = (Wrappers.Returns VUndefined, h)
   /\ Guest.closure bru Vm.Fn_runnerSetNextRequest args h = (Wrappers.Returns VUndefined, h))
  /\ Guest.call bru call_guest s' ["bru"; "runner"; "skipRequest"] args h
     = ((Fulfilled VUndefined, []), h)
  /\ Guest.call bru call_guest s' ["bru"; "runner"; "stopExecution"] args h
     = ((Fulfilled VUndefined, []), h)
  /\ Guest.call bru call_guest s' ["bru"; "runner"; "setNextRequest"] args h
     = ((Fulfilled VUndefined, []), h).
Proof.
  intros Hr s'.
  assert (Hc : Guest.closure bru Vm.Fn_runnerSkipRequest args h = (Wrappers.Returns VUndefined, h)
               /\ Guest.closure bru Vm.Fn_runnerStopExecution args h = (Wrappers.Returns VUndefined, h)
               /\ Guest.closure bru Vm.Fn_runnerSetNextRequest args h = (Wrappers.Returns VUndefined, h)).
  { unfold Guest.closure, Wrappers.run, Wrappers.runnerSkipRequest,
      Wrappers.runnerStopExecution, Wrappers.runnerSetNextRequest,
      Wrappers.optional_runner_call, Wrappers.bind, Wrappers.ret.
    rewrite Hr. repeat split. }
  destruct Hc as (Hskip & Hstop & Hnext).
  destruct (built_members s) as (_ & _ & _ & M1 & M2 & M3 & _).
  split; [by repeat split|]. subst s'.
  rewrite (call_host_member bru call_guest s _ _ _ args h M1), Hskip.
  rewrite (call_host_member bru call_guest s _ _ _ args h M2), Hstop.
  rewrite (call_host_member bru call_guest s _ _ _ args h M3), Hnext.
  repeat split.
Qed.

Lemma runner_calls_without_runner_witness :
  Guest.call (Examples.no_runner Pending) Examples.returning Examples.session
    ["bru"; "runner"; "skipRequest"] [] []
  = ((Fulfilled VUndefined, []), []).
Proof.
  exact (proj1 (proj2 (runner_calls_without_runner (Examples.no_runner Pending)
                         Examples.returning Vm.fresh [] [] eq_refl))).
Defined.

(** A runner that lacks the operation is not covered by the optional
    chain: the closure throws a [TypeError], which the guest's call
    receives as a rejection. *)
Lemma runner_without_operation_throws :
  Guest.closure (Examples.empty_runner Pending) Vm.Fn_runnerSkipRequest [] []
  = (Wrappers.Raises (JS.type_error "bru.runner.skipRequest is not a function"), [])
  /\ Guest.call (Examples.empty_runner Pending) Examples.returning
       Examples.session ["bru"; "runner"; "skipRequest"] [] []
     = ((Rejected (JS.type_error "bru.runner.skipRequest is not a function"), []), [])
  /\ Guest.call (Examples.empty_runner Pending) Examples.returning
       Examples.session ["bru"; "runner"; "skipRequest"] [] []
     <> ((Fulfilled VUndefined, []), []).
Proof. repeat split; vm_compute; (reflexivity || discriminate). Qed.

(** ** Messages across the boundary *)

Section MessageFacts.
Import JS Codec Wrappers.

Lemma message_object_clean {r} (text : string) :
  cleanJson (r:=r) (VObj [("message", VStr text)]) = VObj [("message", VStr text)].
Proof. reflexivity. Qed.

Lemma message_object_marshalled (text : string) :
  marshallToVm (cleanJson (VObj [("message", VStr text)]))
  = VObj [("message", VStr text)].
Proof. reflexivity. Qed.

Lemma missing_message_marshalled :
  marshallToVm (cleanJson (VObj [("message", VUndefined)])) = VObj [].
Proof. reflexivity. Qed.

(** A string member survives the JSON copy of the object that holds it. *)
Lemma assoc_json_copy {r} key text (props : list (string * jsval r)) :
  assoc key props = Some (VStr text) ->
  exists props', json_copy (VObj props) = VObj props'
                 /\ assoc key props' = Some (VStr text).
Proof.
  intros Hk. simpl. eexists; split; [reflexivity|].
  induction props as [|[k x] l IH]; simpl in *; [done|].
  destruct (String.eqb key k) eqn:E.
  - injection Hk as ->. simpl. by rewrite E.
  - destruct (unserializable x); [by apply IH|].
    simpl. rewrite E. by apply IH.
Qed.

Lemma assoc_transfer {a b} key text (props : list (string * jsval a)) :
  assoc key props = Some (VStr text) ->
  exists props', transfer (b:=b) (VObj props) = VObj props'
                 /\ assoc key props' = Some (VStr text).
Proof.
  intros Hk. simpl. eexists; split; [reflexivity|].
  induction props as [|[k x] l IH]; simpl in *; [done|].
  destruct (String.eqb key k) eqn:E.
  - by injection Hk as ->.
  - by apply IH.
Qed.

Lemma assoc_convert {a b} key text (props : list (string * jsval a)) :
  assoc key props = Some (VStr text) ->
  exists props', convert (b:=b) (VObj props) = VObj props'
                 /\ assoc key props' = Some (VStr text).
Proof.
  intros Hk. unfold convert.
  destruct (convertible (VObj props)).
  - by apply assoc_transfer.
  - unfold cleanJson, json_roundtrip. cbn [unserializable].
    destruct (assoc_json_copy key text props Hk) as (props1 & -> & H1).
    by apply assoc_transfer.
Qed.

(** A plain-object error keeps its string message through [cleanJson] and
    [marshallToVm]. *)
Lemma message_of_marshalled_error text (props : list (string * hval)) :
  assoc "message" props = Some (VStr text) ->
  get_message (marshallToVm (cleanJson (VObj props))) = Normal (VStr text).
Proof.
  intros Hk. unfold cleanJson, json_roundtrip. cbn [unserializable].
  destruct (assoc_json_copy _ _ _ Hk) as (props1 & -> & H1).
  destruct (assoc_convert (b:=Guest) _ _ _ H1) as (props2 & E2 & H2).
  unfold marshallToVm. rewrite E2. simpl. by rewrite H2.
Qed.

(** Unless the error is [undefined] or a function, what the guest receives
    has a JSON form. *)
Lemma normalized_error_defined (err : hval) :
  unserializable err = false ->
  exists n, json_roundtrip (marshallToVm (cleanJson err)) = Normal n.
Proof.
  intros Hs. unfold cleanJson, json_roundtrip at 2. rewrite Hs.
  unfold marshallToVm, convert.
  destruct err; try discriminate; try (eexists; reflexivity).
  - destruct (convertible _); eexists; reflexivity.
  - destruct (convertible _); eexists; reflexivity.
Qed.

End MessageFacts.

(** ** Failures of host operations *)

(** C3.  When the host operation fails with an error [err] whose [message]
    can be read, the nested request run, the test-result retrieval and the
    assertion-result retrieval hand the failure to the guest as a fulfilled
    value, the cleaned object [{ message: err.message }]; only the raw
    request send rejects, and with the whole cleaned error rather than an
    object reduced to its message. *)
Theorem capability_failure_surfacing {H : Type} (bru : Bru H)
    (call_guest : gval -> list gval -> H -> outcome Guest * H)
    (s : Vm.state) (args : list gval) (h h1 : H) (err m : hval) :
  JS.get_message err = Normal m ->
  let s' := Vm.exec Shim.addBruShimToContext s in
  let as_value := Codec.marshallToVm (Codec.cleanJson (VObj [("message", m)])) in
  (bru_async bru "runRequest" [Codec.dump (Wrappers.arg 0 args)] h = (Rejected err, h1) ->
     Guest.call bru call_guest s' ["bru"; "runRequest"] args h
     = ((Fulfilled as_value, []), h1))
  /\ (bru_async bru "getTestResults" [] h = (Rejected err, h1) ->
     Guest.call bru call_guest s' ["bru"; "getTestResults"] args h
     = ((Fulfilled as_value, []), h1))
  /\ (bru_async bru "getAssertionResults" [] h = (Rejected err, h1) ->
     Guest.call bru call_guest s' ["bru"; "getAssertionResults"] args h
     = ((Fulfilled as_value, []), h1))
  /\ (bru_async bru "sendRequest" [Codec.dump (Wrappers.arg 0 args)] h = (Rejected err, h1) ->
     Guest.call bru call_guest s' ["bru"; "_sendRequest"] args h
     = ((Rejected (Codec.marshallToVm (Codec.cleanJson err)), []), h1))
  /\ (forall text, m = VStr text -> as_value = VObj [("message", VStr text)]).
Proof.
  intros Hm s' as_value. subst s' as_value.
  repeat split.
  - intros Hop. rewrite call_runRequest, Hop. simpl.
    unfold Wrappers.runRequest_catch, Wrappers.message_of. by rewrite Hm.
  - intros Hop. rewrite call_getTestResults, Hop. simpl.
    unfold Wrappers.getTestResults_catch, Wrappers.message_of. by rewrite Hm.
  - intros Hop. rewrite call_getAssertionResults, Hop. simpl.
    unfold Wrappers.getAssertionResults_catch, Wrappers.message_of. by rewrite Hm.
  - intros Hop. by rewrite call_raw_sendRequest, Hop.
  - by intros text ->.
Qed.

Lemma capability_failure_surfacing_witness :
  Guest.call (Examples.provider (Rejected Examples.timeout)) Examples.returning
    Examples.session ["bru"; "runRequest"] [Examples.requestConfig] []
  = ((Fulfilled (VObj [("message", VStr "timeout of 1000ms exceeded")]), []),
     [("runRequest", [Codec.dump Examples.requestConfig])]).
Proof.
  exact (proj1 (capability_failure_surfacing
                  (Examples.provider (Rejected Examples.timeout))
                  Examples.returning Vm.fresh [Examples.requestConfig] []
                  [("runRequest", [Codec.dump Examples.requestConfig])]
                  Examples.timeout (VStr "timeout of 1000ms exceeded")
                  eq_refl) eq_refl).
Defined.

(** The claim as worded fails on both counts: a failed nested request run
    fulfils the guest promise, and a failed raw send rejects with an object
    that is more than [{ message }]. *)
Lemma failure_neither_rejected_nor_normalized :
  fst (fst (Guest.call (Examples.provider (Rejected Examples.timeout))
              Examples.returning Examples.session
              ["bru"; "runRequest"] [Examples.requestConfig] []))
  = Fulfilled (VObj [("message", VStr "timeout of 1000ms exceeded")])
  /\ fst (fst (Guest.call (Examples.provider (Rejected Examples.timeout))
                 Examples.returning Examples.session
                 ["bru"; "_sendRequest"] [Examples.requestConfig] []))
     = Rejected (VObj [("message", VStr "timeout of 1000ms exceeded");
                       ("code", VStr "ECONNABORTED")]).
Proof. split; vm_compute; reflexivity. Qed.




(** ** The calling convention of [bru.sendRequest] *)

Section SendRequestFacts.
Import JS Codec Wrappers.

Context {H : Type}.
Variable bru : Bru H.
Variable call_guest : gval -> list gval -> H -> outcome Guest * H.
Variable s : Vm.state.

Let s' := Vm.exec Shim.addBruShimToContext s.

(** The bootstrap function in terms of the provider's dispatch. *)
Lemma sendRequest_unfolded requestConfig callback h o h1 :
  bru_async bru "sendRequest" [dump requestConfig] h = (o, h1) ->
  Guest.call bru call_guest s' ["bru"; "sendRequest"] [requestConfig; callback] h
  = if negb (truthy callback) then
      ((settled (then_catch sendRequest_then sendRequest_catch o), []), h1)
    else
      match o with
      | Fulfilled response =>
          Guest.guarded_callback call_guest callback VNull
            (marshallToVm (cleanCircularJson response)) h1
      | Rejected err =>
          match json_roundtrip (marshallToVm (cleanJson err)) with
          | Normal normalized =>
              Guest.guarded_callback call_guest callback normalized VNull h1
          | Throw e => ((Rejected e, []), h1)
          end
      | Pending => ((Pending, []), h1)
      end.
Proof.
  intros Hop. unfold s'. rewrite call_sendRequest. unfold Guest.sendRequest.
  rewrite await_raw_sendRequest, Hop. simpl.
  destruct (truthy callback); simpl; [|reflexivity].
  destruct o; reflexivity.
Qed.

Lemma guarded_callback_invocations callback a b h :
  snd (fst (Guest.guarded_callback call_guest callback a b h))
  = [(callback, [a; b])].
Proof.
  unfold Guest.guarded_callback. by destruct (call_guest callback [a; b] h).
Qed.

End SendRequestFacts.

(** X17.  The calling convention on the paths that work.  Without a callback,
    [bru.sendRequest(cfg)] ends exactly as the host dispatch does: fulfilled
    with the marshalled response, rejected with the marshalled error.  With
    a callback, the callback is invoked exactly once with [(null, response)]
    when the dispatch succeeds, and exactly once with
    [(normalizedError, null)] when it fails with an error that has a JSON
    text. *)
Lemma sendRequest_calling_convention {H : Type} (bru : Bru H)
    (call_guest : gval -> list gval -> H -> outcome Guest * H)
    (s : Vm.state) (cfg cb : gval) (h h1 : H) (o : outcome Host) :
  bru_async bru "sendRequest" [Codec.dump cfg] h = (o, h1) ->
  let s' := Vm.exec Shim.addBruShimToContext s in
  let res := Guest.call bru call_guest s' ["bru"; "sendRequest"] [cfg; cb] h in
  (JS.truthy cb = false ->
     res = ((match o with
             | Fulfilled response =>
                 Fulfilled (Codec.marshallToVm (Codec.cleanCircularJson response))
             | Rejected err =>
                 Rejected (Codec.marshallToVm (Codec.cleanJson err))
             | Pending => Pending
             end, []), h1))
  /\ (JS.truthy cb = true -> forall response, o = Fulfilled response ->
     snd (fst res)
     = [(cb, [VNull; Codec.marshallToVm (Codec.cleanCircularJson response)])])
  /\ (JS.truthy cb = true -> forall err, o = Rejected err ->
     JS.unserializable err = false ->
     exists normalized,
       JS.json_roundtrip (Codec.marshallToVm (Codec.cleanJson err))
       = Normal normalized
       /\ snd (fst res) = [(cb, [normalized; VNull])]).
Proof.
  intros Hop s' res. subst s' res.
  rewrite (sendRequest_unfolded bru call_guest s cfg cb h o h1 Hop).
  repeat split.
  - intros ->. simpl. by destruct o.
  - intros -> response ->. simpl. apply guarded_callback_invocations.
  - intros -> err -> Hs. simpl.
    destruct (normalized_error_defined err Hs) as (n & Hn).
    exists n. split; [exact Hn|]. rewrite Hn.
    apply guarded_callback_invocations.
Qed.

Lemma sendRequest_calling_convention_witness :
  snd (fst (Guest.call (Examples.provider (Fulfilled Examples.response))
              Examples.returning Examples.session ["bru"; "sendRequest"]
              [Examples.requestConfig; VFun "cb"] []))
  = [(VFun "cb",
      [VNull; Codec.marshallToVm (Codec.cleanCircularJson Examples.response)])].
Proof.
  exact (proj1 (proj2 (sendRequest_calling_convention
            (Examples.provider (Fulfilled Examples.response))
            Examples.returning Vm.fresh Examples.requestConfig (VFun "cb")
            [] [("sendRequest", [Codec.dump Examples.requestConfig])]
            (Fulfilled Examples.response) eq_refl))
          eq_refl Examples.response eq_refl).
Defined.

(** C1.  The claim fails on the failure branch of [bru.sendRequest]: when
    the host dispatch rejects with [undefined], the argument
    [JSON.parse(JSON.stringify(error))] of the callback throws before the
    call is made, so that the callback is invoked zero times instead of once
    and the call rejects with the [SyntaxError] of [JSON.parse], whatever
    the interpreter state, the request config and the callback.  The
    sibling paths do invoke the callback exactly once: with
    [(null, response)] when the dispatch succeeds, with
    [(normalizedError, null)] when it fails with a timeout error. *)
Theorem callback_skipped_on_undefined_rejection
    (call_guest : gval -> list gval -> Examples.calls
                  -> outcome Guest * Examples.calls)
    (s : Vm.state) (cfg : gval) (name : string) (h : Examples.calls)
    (response : hval) :
  let s' := Vm.exec Shim.addBruShimToContext s in
  let cb : gval := VFun name in
  Guest.call (Examples.provider (Rejected VUndefined)) call_guest s'
    ["bru"; "sendRequest"] [cfg; cb] h
  = ((Rejected (JS.syntax_error "unexpected token: 'undefined'"), []),
     h ++ [("sendRequest", [Codec.dump cfg])])
  /\ snd (fst (Guest.call (Examples.provider (Fulfilled response)) call_guest
                 s' ["bru"; "sendRequest"] [cfg; cb] h))
     = [(cb, [VNull; Codec.marshallToVm (Codec.cleanCircularJson response)])]
  /\ snd (fst (Guest.call (Examples.provider (Rejected Examples.timeout))
                 call_guest s' ["bru"; "sendRequest"] [cfg; cb] h))
     = [(cb, [Codec.marshallToVm Examples.timeout; VNull])].
Proof.
  cbv zeta. repeat split.
  - by rewrite (sendRequest_unfolded (Examples.provider (Rejected VUndefined))
                  call_guest s cfg (VFun name) h _ _ eq_refl).
  - rewrite (sendRequest_unfolded (Examples.provider (Fulfilled response))
               call_guest s cfg (VFun name) h _ _ eq_refl).
    apply guarded_callback_invocations.
  - rewrite (sendRequest_unfolded (Examples.provider (Rejected Examples.timeout))
               call_guest s cfg (VFun name) h _ _ eq_refl).
    apply guarded_callback_invocations.
Qed.

(** C7.  With a callback, the wrapper awaits the dispatch and invokes the
    callback with [(null, response)] or [(normalizedError, null)]; an error
    thrown by the callback, on either branch, is the rejection of the call
    to [bru.sendRequest]. *)
Theorem callback_errors_propagate {H : Type} (bru : Bru H)
    (call_guest : gval -> list gval -> H -> outcome Guest * H)
    (s : Vm.state) (cfg cb a b e : gval) (h h1 h2 : H) (o : outcome Host) :
  JS.truthy cb = true ->
  bru_async bru "sendRequest" [Codec.dump cfg] h = (o, h1) ->
  (exists response,
      o = Fulfilled response /\ a = VNull
      /\ b = Codec.marshallToVm (Codec.cleanCircularJson response))
  \/ (exists err,
      o = Rejected err
      /\ JS.json_roundtrip (Codec.marshallToVm (Codec.cleanJson err)) = Normal a
      /\ b = VNull) ->
  call_guest cb [a; b] h1 = (Rejected e, h2) ->
  Guest.call bru call_guest (Vm.exec Shim.addBruShimToContext s)
    ["bru"; "sendRequest"] [cfg; cb] h
  = ((Rejected e, [(cb, [a; b])]), h2).
Proof.
  intros Hcb Hop Hbranch Hthrow.
  rewrite (sendRequest_unfolded bru call_guest s cfg cb h o h1 Hop), Hcb.
  simpl.
  destruct Hbranch as [(response & -> & -> & ->) | (err & -> & Hn & ->)].
  - unfold Guest.guarded_callback. by rewrite Hthrow.
  - rewrite Hn. unfold Guest.guarded_callback. by rewrite Hthrow.
Qed.

Lemma callback_errors_propagate_witness :
  Guest.call (Examples.provider (Rejected Examples.timeout))
    (Examples.throwing (VStr "boom")) Examples.session
    ["bru"; "sendRequest"] [Examples.requestConfig; VFun "cb"] []
  = ((Rejected (VStr "boom"),
      [(VFun "cb", [Codec.marshallToVm Examples.timeout; VNull])]),
     [("sendRequest", [Codec.dump Examples.requestConfig])]).
Proof.
  apply (callback_errors_propagate
           (Examples.provider (Rejected Examples.timeout))
           (Examples.throwing (VStr "boom")) Vm.fresh
           Examples.requestConfig (VFun "cb")
           (Codec.marshallToVm Examples.timeout) VNull (VStr "boom")
           [] [("sendRequest", [Codec.dump Examples.requestConfig])]
           [("sendRequest", [Codec.dump Examples.requestConfig])]
           (Rejected Examples.timeout)).
  - reflexivity.
  - reflexivity.
  - right. exists Examples.timeout. repeat split.
  - reflexivity.
Defined.

(** C9.  With a callback, when the host dispatch and the callback both
    complete without error, the promise returned by [bru.sendRequest] is
    fulfilled with [undefined]: the response goes to the callback only. *)
Theorem sendRequest_with_callback_yields_undefined {H : Type} (bru : Bru H)
    (call_guest : gval -> list gval -> H -> outcome Guest * H)
    (s : Vm.state) (cfg cb v : gval) (h h1 h2 : H) (response : hval) :
  JS.truthy cb = true ->
  bru_async bru "sendRequest" [Codec.dump cfg] h = (Fulfilled response, h1) ->
  call_guest cb [VNull; Codec.marshallToVm (Codec.cleanCircularJson response)] h1
  = (Fulfilled v, h2) ->
  Guest.call bru call_guest (Vm.exec Shim.addBruShimToContext s)
    ["bru"; "sendRequest"] [cfg; cb] h
  = ((Fulfilled VUndefined,
      [(cb, [VNull; Codec.marshallToVm (Codec.cleanCircularJson response)])]),
     h2).
Proof.
  intros Hcb Hop Hok.
  rewrite (sendRequest_unfolded bru call_guest s cfg cb h _ h1 Hop), Hcb.
  simpl. unfold Guest.guarded_callback. by rewrite Hok.
Qed.

Lemma sendRequest_with_callback_yields_undefined_witness :
  Guest.call (Examples.provider (Fulfilled Examples.response))
    Examples.returning Examples.session
    ["bru"; "sendRequest"] [Examples.requestConfig; VFun "cb"] []
  = ((Fulfilled VUndefined,
      [(VFun "cb",
        [VNull; Codec.marshallToVm (Codec.cleanCircularJson Examples.response)])]),
     [("sendRequest", [Codec.dump Examples.requestConfig])]).
Proof.
  apply (sendRequest_with_callback_yields_undefined
           (Examples.provider (Fulfilled Examples.response))
           Examples.returning Vm.fresh Examples.requestConfig (VFun "cb")
           VUndefined [] [("sendRequest", [Codec.dump Examples.requestConfig])]
           [("sendRequest", [Codec.dump Examples.requestConfig])]
           Examples.response); reflexivity.
Defined.

(** ** Settlements and drains *)

Section LoopFacts.
Import Loop.

Lemma work_app q q' : work (q ++ q') = work q + work q'.
Proof.
  induction q as [|[p [x|]|] q IH]; simpl; rewrite ?IH; reflexivity.
Qed.

(** The invariant of the protocol: established when nothing has happened
    yet, kept by every move. *)
Lemma drain_due_run_job st : drain_due st -> drain_due (run_job st).
Proof.
  unfold drain_due, run_job. intros Hd.
  destruct (host_jobs st) as [|[p [x|]|] rest] eqn:E; simpl.
  - destruct (timers st) as [|p later]; simpl.
    + by rewrite E.
    + right. by left.
  - right. apply in_or_app. right. by left.
  - destruct Hd as [Hd|[Hd|Hd]]; [by left | discriminate | by right].
  - by left.
Qed.

Lemma reachable_drain_due st : reachable st -> drain_due st.
Proof.
  induction 1 as [|p st _ IH|p a b o st _ IH|p st _ IH|st _ IH].
  - by left.
  - exact IH.
  - unfold drain_due, host_settles in *.
    destruct o; simpl; try exact IH;
      (destruct IH as [IH|IH]; [by left | right; apply in_or_app; by left]).
  - exact IH.
  - by apply drain_due_run_job.
Qed.

Lemma load_run_job st :
  host_jobs st <> [] \/ timers st <> [] ->
  S (load (run_job st)) = load st.
Proof.
  unfold run_job, load. intros Hne.
  destruct (host_jobs st) as [|[p [x|]|] rest]; simpl.
  - destruct (timers st) as [|p later]; simpl; [by destruct Hne | lia].
  - rewrite work_app. simpl. lia.
  - lia.
  - lia.
Qed.

Lemma run_jobs_idle n st :
  host_jobs st = [] -> timers st = [] -> run_jobs n st = st.
Proof.
  intros Hq Ht. induction n as [|n IH]; simpl; [done|].
  assert (Hr : run_job st = st) by (unfold run_job; by rewrite Hq, Ht).
  by rewrite Hr.
Qed.

Lemma log_run_job e st : In e (log st) -> In e (log (run_job st)).
Proof.
  unfold run_job. intros Hin.
  destruct (host_jobs st) as [|[p [x|]|] rest]; simpl; auto.
  destruct (timers st); simpl; auto.
Qed.

Lemma log_run_jobs e n st : In e (log st) -> In e (log (run_jobs n st)).
Proof.
  revert st. induction n as [|n IH]; intros st Hin; simpl; [done|].
  by apply IH, log_run_job.
Qed.

Lemma load_zero st : load st = 0 -> host_jobs st = [] /\ timers st = [].
Proof.
  unfold load. intros Hl.
  destruct (host_jobs st) as [|[p [x|]|] rest]; simpl in Hl; try lia.
  destruct (timers st); simpl in Hl; [done | lia].
Qed.

Lemma run_jobs_drains n st :
  load st <= n ->
  drain_due st ->
  host_jobs (run_jobs n st) = []
  /\ timers (run_jobs n st) = []
  /\ guest_jobs (run_jobs n st) = []
  /\ forall p, In p (guest_jobs st) ->
       exists ran, In (Drained ran) (log (run_jobs n st)) /\ In p ran.
Proof.
  revert st. induction n as [|n IH]; intros st Hw Hd.
  - destruct (load_zero st) as [Hq Ht]; [lia|].
    destruct Hd as [Hg|Hin]; [|by rewrite Hq in Hin].
    simpl. rewrite Hg. by repeat split.
  - destruct (decide (load st = 0)) as [Hz|Hnz].
    + destruct (load_zero st Hz) as [Hq Ht].
      rewrite run_jobs_idle by done.
      destruct Hd as [Hg|Hin]; [|by rewrite Hq in Hin].
      rewrite Hg. by repeat split.
    + assert (Hne : host_jobs st <> [] \/ timers st <> []).
      { destruct (host_jobs st) eqn:Hq; [|by left].
        destruct (timers st) eqn:Ht; [|by right].
        exfalso. apply Hnz. unfold load. by rewrite Hq, Ht. }
      pose proof (load_run_job st Hne) as Hstep.
      destruct (IH (run_job st)) as (Hh & Ht & Hg & Hran);
        [lia | by apply drain_due_run_job |].
      simpl. repeat split; [exact Hh | exact Ht | exact Hg |].
      intros p Hp. unfold run_job in Hran |- *.
      destruct (host_jobs st) as [|[q [x|]|] rest] eqn:Hq; simpl in Hran.
      * destruct (timers st) as [|q later] eqn:Htm; simpl in Hran.
        { destruct Hne as [Hne|Hne]; by destruct Hne. }
        apply Hran. apply in_or_app. by left.
      * apply Hran. apply in_or_app. by left.
      * by apply Hran.
      * exists (guest_jobs st). split; [|exact Hp].
        apply log_run_jobs. by left.
Qed.

End LoopFacts.

(** C4.  Every settlement of a guest promise queues a drain of the guest's
    pending jobs behind the host jobs already waiting, other settlements
    among them.  From any state the queues can reach, once the host jobs
    and timer callbacks have run, no job of the guest is left pending:
    every continuation that was waiting to run has been run by some drain.
    A promise settled from a timer callback ([sleep]) is drained by the very
    next job. *)
Theorem settled_continuations_run (st : Loop.state) :
  Loop.reachable st ->
  let st' := Loop.run_jobs (Loop.load st) st in
  (Loop.host_jobs st' = []
   /\ Loop.timers st' = []
   /\ Loop.guest_jobs st' = []
   /\ forall p, In p (Loop.guest_jobs st) ->
        exists ran, In (Loop.Drained ran) (Loop.log st') /\ In p ran)
  /\ (forall p later,
        Loop.host_jobs st = [] -> Loop.timers st = p :: later ->
        Loop.log (Loop.run_jobs 2 st)
        = Loop.Drained (Loop.guest_jobs st ++ [p])
            :: Loop.Settled p :: Loop.log st).
Proof.
  intros Hr. split.
  - apply run_jobs_drains; [lia | by apply reachable_drain_due].
  - intros p later Hq Ht. simpl. unfold Loop.run_job at 2.
    rewrite Hq, Ht. reflexivity.
Qed.

Lemma settled_continuations_run_witness :
  let st := Loop.run_job Examples.two_settlements in
  let st' := Loop.run_jobs (Loop.load st) st in
  Loop.host_jobs st' = []
  /\ Loop.timers st' = []
  /\ Loop.guest_jobs st' = []
  /\ forall p, In p (Loop.guest_jobs st) ->
       exists ran, In (Loop.Drained ran) (Loop.log st') /\ In p ran.
Proof.
  apply (settled_continuations_run (Loop.run_job Examples.two_settlements)).
  apply Loop.reach_run. unfold Examples.two_settlements.
  apply Loop.reach_timer, Loop.reach_settles, Loop.reach_settles,
    Loop.reach_issue, Loop.reach_issue, Loop.reach_issue, Loop.reach_idle.
Defined.

(** The claim as worded fails: with two reactions waiting in the host
    queue, the second settlement is processed before the drain that the
    first one asked for. *)
Lemma second_settlement_before_first_drain :
  Loop.log (Loop.run_jobs 4 Examples.two_settlements)
  = [Loop.Drained []; Loop.Drained [0; 1]; Loop.Settled 1; Loop.Settled 0]
  /\ Loop.drained_at_once (Loop.log (Loop.run_jobs 4 Examples.two_settlements))
     = false.
Proof. split; reflexivity. Qed.

(** * Further properties of the shim *)

(** ** The builder and the interpreter state *)

Lemma assoc_set_other {A} k k' (a : A) l :
  k <> k' -> JS.assoc k (JS.assoc_set k' a l) = JS.assoc k l.
Proof.
  intros Hne. induction l as [|[k0 a0] l IH]; simpl.
  - destruct (String.eqb k k') eqn:E; [|done].
    by apply String.eqb_eq in E.
  - destruct (String.eqb k' k0) eqn:E0; simpl.
    + apply String.eqb_eq in E0 as <-.
      destruct (String.eqb k k') eqn:E; [|done].
      by apply String.eqb_eq in E.
    + by rewrite IH.
Qed.

Lemma assoc_is_Some {A} k (l : list (string * A)) :
  is_Some (JS.assoc k l) <-> In k (map fst l).
Proof.
  induction l as [|[k' a] l IH]; simpl.
  - split; [by intros [x Hx] | done].
  - destruct (String.eqb k k') eqn:E.
    + apply String.eqb_eq in E as ->. split; [by left | by eexists].
    + rewrite IH. split; [by right|].
      intros [->|Hin]; [|done]. by rewrite String.eqb_refl in E.
Qed.

Lemma assoc_In {A} k (a : A) (l : list (string * A)) :
  JS.assoc k l = Some a -> In (k, a) l.
Proof.
  induction l as [|[k' a'] l IH]; simpl; [done|].
  destruct (String.eqb k k') eqn:E.
  - apply String.eqb_eq in E as ->. intros [= ->]. by left.
  - intros Hk. right. by apply IH.
Qed.

Section SurfaceFacts.
Import Vm Shim.

(** Every function the builder creates, by the order of its creation. *)
Lemma built_heap s :
  let hp := heap (exec addBruShimToContext s) in
  hp !! (2 + next s) = Some (HostFunction "cwd" Fn_cwd)
  /\ hp !! (3 + next s) = Some (HostFunction "getEnvName" Fn_getEnvName)
  /\ hp !! (4 + next s) = Some (HostFunction "getCollectionName" Fn_getCollectionName)
  /\ hp !! (5 + next s) = Some (HostFunction "getProcessEnv" Fn_getProcessEnv)
  /\ hp !! (6 + next s) = Some (HostFunction "interpolate" Fn_interpolate)
  /\ hp !! (7 + next s) = Some (HostFunction "hasEnvVar" Fn_hasEnvVar)
  /\ hp !! (8 + next s) = Some (HostFunction "getEnvVar" Fn_getEnvVar)
  /\ hp !! (9 + next s) = Some (HostFunction "setEnvVar" Fn_setEnvVar)
  /\ hp !! (10 + next s) = Some (HostFunction "deleteEnvVar" Fn_deleteEnvVar)
  /\ hp !! (11 + next s) = Some (HostFunction "getGlobalEnvVar" Fn_getGlobalEnvVar)
  /\ hp !! (12 + next s) = Some (HostFunction "getOauth2CredentialVar" Fn_getOauth2CredentialVar)
  /\ hp !! (13 + next s) = Some (HostFunction "setGlobalEnvVar" Fn_setGlobalEnvVar)
  /\ hp !! (14 + next s) = Some (HostFunction "hasVar" Fn_hasVar)
  /\ hp !! (15 + next s) = Some (HostFunction "getVar" Fn_getVar)
  /\ hp !! (16 + next s) = Some (HostFunction "setVar" Fn_setVar)
  /\ hp !! (17 + next s) = Some (HostFunction "deleteVar" Fn_deleteVar)
  /\ hp !! (18 + next s) = Some (HostFunction "deleteAllVars" Fn_deleteAllVars)
  /\ hp !! (19 + next s) = Some (HostFunction "setNextRequest" Fn_setNextRequest)
  /\ hp !! (20 + next s) = Some (HostFunction "skipRequest" Fn_runnerSkipRequest)
  /\ hp !! (21 + next s) = Some (HostFunction "stopExecution" Fn_runnerStopExecution)
  /\ hp !! (22 + next s) = Some (HostFunction "setNextRequest" Fn_runnerSetNextRequest)
  /\ hp !! (23 + next s) = Some (HostFunction "visualize" Fn_visualize)
  /\ hp !! (24 + next s) = Some (HostFunction "getSecretVar" Fn_getSecretVar)
  /\ hp !! (25 + next s) = Some (HostFunction "getRequestVar" Fn_getRequestVar)
  /\ hp !! (26 + next s) = Some (HostFunction "getFolderVar" Fn_getFolderVar)
  /\ hp !! (27 + next s) = Some (HostFunction "getCollectionVar" Fn_getCollectionVar)
  /\ hp !! (28 + next s) = Some (HostFunction "getTestResults" Fn_getTestResults)
  /\ hp !! (29 + next s) = Some (HostFunction "getAssertionResults" Fn_getAssertionResults)
  /\ hp !! (30 + next s) = Some (HostFunction "runRequest" Fn_runRequestHandle)
  /\ hp !! (31 + next s) = Some (HostFunction "_sendRequest" Fn_sendRequestHandle)
  /\ hp !! (32 + next s) = Some (HostFunction "sleep" Fn_sleep)
  /\ hp !! (33 + next s) = Some (ScriptFunction SendRequest).
Proof.
  destruct s as [n hp gl tr]. run_builder.
  repeat split; heap_lookup; reflexivity.
Qed.
(** The members of [bru] and of [bru.runner] in terms of the heap. *)
Lemma member_of_bru s key :
  member (exec addBruShimToContext s) ["bru"; key]
  = match get (exec addBruShimToContext s) (Obj (next s)) key with
    | Some (Obj id) => heap (exec addBruShimToContext s) !! id
    | _ => None
    end.
Proof.
  unfold member. cbn [resolve].
  replace (get (exec addBruShimToContext s) Global "bru")
    with (Some (Obj (next s)))
    by (cbn [get]; by rewrite built_global, assoc_set_same).
  by destruct (get _ _ key) as [[|id]|].
Qed.

Lemma member_of_runner s key :
  member (exec addBruShimToContext s) ["bru"; "runner"; key]
  = match get (exec addBruShimToContext s) (Obj (1 + next s)) key with
    | Some (Obj id) => heap (exec addBruShimToContext s) !! id
    | _ => None
    end.
Proof.
  unfold member. cbn [resolve].
  replace (get (exec addBruShimToContext s) Global "bru")
    with (Some (Obj (next s)))
    by (cbn [get]; by rewrite built_global, assoc_set_same).
  replace (get (exec addBruShimToContext s) (Obj (next s)) "runner")
    with (Some (Obj (1 + next s)))
    by (cbn [get]; by rewrite built_bru_object).
  by destruct (get _ _ key) as [[|id]|].
Qed.

End SurfaceFacts.



(** ** The surface, member by member *)

Section SurfaceTable.
Import Vm Shim.

Lemma bru_member_function s key f :
  In (key, f) Surface.bru_functions ->
  member (exec addBruShimToContext s) ["bru"; key] = Some (HostFunction key f).
Proof.
  intros Hin. rewrite member_of_bru. cbn [get]. rewrite built_bru_object.
  pose proof (built_heap s) as Hh. cbv zeta in Hh.
  generalize dependent (heap (exec addBruShimToContext s)). intros hp Hh.
  decompose [and] Hh. clear Hh.
  unfold Surface.bru_functions in Hin.
  repeat (destruct Hin as [[= <- <-]|Hin]; [simpl; assumption|]).
  destruct Hin.
Qed.

Lemma runner_member_function s key f :
  In (key, f) Surface.runner_functions ->
  member (exec addBruShimToContext s) ["bru"; "runner"; key]
  = Some (HostFunction key f).
Proof.
  intros Hin. rewrite member_of_runner. cbn [get]. rewrite built_runner_object.
  pose proof (built_heap s) as Hh. cbv zeta in Hh.
  generalize dependent (heap (exec addBruShimToContext s)). intros hp Hh.
  decompose [and] Hh. clear Hh.
  unfold Surface.runner_functions in Hin.
  repeat (destruct Hin as [[= <- <-]|Hin]; [simpl; assumption|]).
  destruct Hin.
Qed.

Lemma bru_member_defined s key :
  is_Some (member (exec addBruShimToContext s) ["bru"; key])
  <-> In key Surface.bru_keys.
Proof.
  split.
  - rewrite member_of_bru. cbn [get]. rewrite built_bru_object.
    intros Hs.
    match type of Hs with
    | context [JS.assoc key ?l] =>
        assert (Hk : is_Some (JS.assoc key l))
          by (destruct (JS.assoc key l); [by eexists | by destruct Hs]);
        apply assoc_is_Some in Hk
    end.
    exact Hk.
  - unfold Surface.bru_keys. intros Hin. apply in_app_or in Hin as [Hin|Hin].
    + apply in_map_iff in Hin as ([k f] & <- & Hin).
      cbn [fst]. rewrite (bru_member_function s k f Hin). by eexists.
    + rewrite member_of_bru. cbn [get]. rewrite built_bru_object.
      pose proof (built_runner_object s) as Hr.
      pose proof (built_heap s) as Hh. cbv zeta in Hh.
      generalize dependent (heap (exec addBruShimToContext s)).
      intros hp Hr Hh. decompose [and] Hh. clear Hh.
      destruct Hin as [<-|[<-|[]]]; simpl; eexists; eassumption.
Qed.

Lemma runner_member_defined s key :
  is_Some (member (exec addBruShimToContext s) ["bru"; "runner"; key])
  <-> In key Surface.runner_keys.
Proof.
  split.
  - rewrite member_of_runner. cbn [get]. rewrite built_runner_object.
    intros Hs.
    match type of Hs with
    | context [JS.assoc key ?l] =>
        assert (Hk : is_Some (JS.assoc key l))
          by (destruct (JS.assoc key l); [by eexists | by destruct Hs]);
        apply assoc_is_Some in Hk
    end.
    exact Hk.
  - unfold Surface.runner_keys. intros Hin.
    apply in_map_iff in Hin as ([k f] & <- & Hin).
    cbn [fst]. rewrite (runner_member_function s k f Hin). by eexists.
Qed.

End SurfaceTable.



(** ** Values through the codec and back *)

Section CodecBack.
Import JS Codec.

Lemma json_safe_serializable {r} (v : jsval r) :
  json_safe v = true -> unserializable v = false.
Proof. by destruct v. Qed.

(** JSON-safe data is its own JSON copy. *)
Lemma json_copy_safe {r} (v : jsval r) :
  json_safe v = true -> json_copy v = v.
Proof.
  induction v as [ | | | | | elems IH | props IH | | ] using jsval_ind;
    intros Hs; try done.
  - simpl in *. f_equal.
    induction IH as [|x l Hx _ IHl]; simpl in *; [done|].
    apply andb_true_iff in Hs as [H1 H2].
    rewrite (json_safe_serializable x H1), Hx, IHl; done.
  - simpl in *. f_equal.
    apply andb_true_iff in Hs as [_ Hs].
    induction IH as [|[k x] l Hx _ IHl]; simpl in *; [done|].
    apply andb_true_iff in Hs as [H1 H2].
    rewrite (json_safe_serializable x H1), Hx, IHl; done.
Qed.

Lemma cleanJson_safe {r} (v : jsval r) :
  json_safe v = true -> cleanJson v = v.
Proof.
  intros Hs. unfold cleanJson, json_roundtrip.
  by rewrite (json_safe_serializable v Hs), json_copy_safe.
Qed.

(** The round trip that starts in the guest. *)
Lemma guest_roundtrip (g : gval) :
  json_safe g = true -> marshallToVm (dump g) = g.
Proof.
  intros Hs. unfold dump, marshallToVm.
  rewrite (convert_safe g Hs).
  rewrite convert_safe by (by apply transfer_json_safe).
  by apply transfer_back.
Qed.

Lemma marshalled_safe (v : hval) :
  json_safe v = true ->
  marshallToVm (cleanJson v) = transfer v
  /\ dump (transfer (b:=Guest) v) = v.
Proof.
  intros Hs. rewrite (cleanJson_safe v Hs). unfold marshallToVm, dump.
  rewrite (convert_safe v Hs). split; [done|].
  rewrite convert_safe by (by apply transfer_json_safe).
  by apply transfer_back.
Qed.

End CodecBack.

(** X3.  A runtime variable makes the round trip through the shim: when
    the provider's [getVar] returns the host value its [setVar] was given,
    a script that calls [bru.setVar(key, value)] with JSON-safe data and
    then [bru.getVar(key)] reads back exactly the value it wrote; the call
    of [bru.setVar] itself yields [undefined]. *)
Theorem variable_round_trip {H : Type} (bru : Bru H)
    (call_guest : gval -> list gval -> H -> outcome Guest * H)
    (s : Vm.state) (key value : gval) (r : hval) (h h1 h2 : H) :
  JS.json_safe value = true ->
  bru_call bru "setVar" [Codec.dump key; Codec.dump value] h = (Normal r, h1) ->
  bru_call bru "getVar" [Codec.dump key] h1 = (Normal (Codec.dump value), h2) ->
  let s' := Vm.exec Shim.addBruShimToContext s in
  Guest.call bru call_guest s' ["bru"; "setVar"] [key; value] h
  = ((Fulfilled VUndefined, []), h1)
  /\ Guest.call bru call_guest s' ["bru"; "getVar"] [key] h1
     = ((Fulfilled value, []), h2).
Proof.
  intros Hs Hset Hget s'. subst s'. split.
  - rewrite (call_host_member bru call_guest s _ "setVar" Vm.Fn_setVar)
      by (apply bru_member_function; do 14 right; by left).
    unfold Guest.closure, Wrappers.run, Wrappers.setVar, Wrappers.bind,
      Wrappers.invoke, Wrappers.ret, Wrappers.arg. cbn [nth].
    by rewrite Hset.
  - rewrite (call_host_member bru call_guest s _ "getVar" Vm.Fn_getVar)
      by (apply bru_member_function; do 13 right; by left).
    unfold Guest.closure, Wrappers.run, Wrappers.getVar, Wrappers.bind,
      Wrappers.invoke, Wrappers.ret, Wrappers.arg. cbn [nth].
    rewrite Hget. cbn [fst snd Guest.awaited].
    by rewrite (guest_roundtrip value Hs).
Qed.

Lemma variable_round_trip_witness :
  Guest.call Surface.store_provider Surface.no_callbacks Examples.session
    ["bru"; "getVar"] [VStr "token"]
    [("token", VObj [("id", VNum 7); ("scopes", VArr [VStr "read"; VNull])])]
  = ((Fulfilled (VObj [("id", VNum 7); ("scopes", VArr [VStr "read"; VNull])]),
      []),
     [("token", VObj [("id", VNum 7); ("scopes", VArr [VStr "read"; VNull])])]).
Proof.
  exact (proj2 (variable_round_trip Surface.store_provider Surface.no_callbacks
                  Vm.fresh (VStr "token")
                  (VObj [("id", VNum 7); ("scopes", VArr [VStr "read"; VNull])])
                  VUndefined [] _ _ eq_refl eq_refl eq_refl)).
Defined.

(** X4.  A JSON-safe result of a host operation reaches the guest
    unchanged: when the test-result retrieval, the assertion-result
    retrieval, the nested request run or the raw request send is fulfilled
    on the host with JSON-safe data, the guest promise is fulfilled with the
    same data, member for member and in the same order, and nothing of it
    is dropped by the cleaning. *)
Theorem safe_results_unchanged {H : Type} (bru : Bru H)
    (call_guest : gval -> list gval -> H -> outcome Guest * H)
    (s : Vm.state) (args : list gval) (h h1 : H) (v : hval) :
  JS.json_safe v = true ->
  let s' := Vm.exec Shim.addBruShimToContext s in
  let delivered (res : (outcome Guest * list Guest.invocation) * H) : Prop :=
    res = ((Fulfilled (Codec.transfer v), []), h1) in
  (bru_async bru "getTestResults" [] h = (Fulfilled v, h1) ->
     delivered (Guest.call bru call_guest s' ["bru"; "getTestResults"] args h))
  /\ (bru_async bru "getAssertionResults" [] h = (Fulfilled v, h1) ->
     delivered (Guest.call bru call_guest s' ["bru"; "getAssertionResults"] args h))
  /\ (bru_async bru "runRequest" [Codec.dump (Wrappers.arg 0 args)] h
      = (Fulfilled v, h1) ->
     delivered (Guest.call bru call_guest s' ["bru"; "runRequest"] args h))
  /\ (bru_async bru "sendRequest" [Codec.dump (Wrappers.arg 0 args)] h
      = (Fulfilled v, h1) ->
     delivered (Guest.call bru call_guest s' ["bru"; "_sendRequest"] args h))
  /\ Codec.dump (Codec.transfer (b:=Guest) v) = v.
Proof.
  intros Hs s' delivered. subst s' delivered.
  destruct (marshalled_safe v Hs) as [Hm Hd].
  repeat split; try exact Hd; intros Hop.
  - rewrite call_getTestResults, Hop. cbn [fst snd Wrappers.then_catch].
    unfold Wrappers.getTestResults_then. cbn [Wrappers.settled]. by rewrite Hm.
  - rewrite call_getAssertionResults, Hop. cbn [fst snd Wrappers.then_catch].
    unfold Wrappers.getAssertionResults_then. cbn [Wrappers.settled].
    by rewrite Hm.
  - rewrite call_runRequest, Hop. cbn [fst snd Wrappers.then_catch].
    unfold Wrappers.runRequest_then, Codec.cleanCircularJson.
    cbn [Wrappers.settled]. by rewrite Hm.
  - rewrite call_raw_sendRequest, Hop. cbn [fst snd Wrappers.then_catch].
    unfold Wrappers.sendRequest_then, Codec.cleanCircularJson.
    cbn [Wrappers.settled]. by rewrite Hm.
Qed.

Lemma safe_results_unchanged_witness :
  Guest.call (Examples.provider (Fulfilled Examples.response))
    Examples.returning Examples.session ["bru"; "runRequest"]
    [Examples.requestConfig] []
  = ((Fulfilled (VObj [("status", VNum 200); ("data", VStr "ping")]), []),
     [("runRequest", [Codec.dump Examples.requestConfig])]).
Proof.
  exact (proj1 (proj2 (proj2 (safe_results_unchanged
            (Examples.provider (Fulfilled Examples.response))
            Examples.returning Vm.fresh [Examples.requestConfig] []
            [("runRequest", [Codec.dump Examples.requestConfig])]
            Examples.response eq_refl))) eq_refl).
Defined.

(** ** Rejections without a reason *)

(** X5.  When the host operation rejects with [null] or [undefined], the
    catch callbacks of the nested request run and of the two result
    retrievals throw on reading [err.message] before they reach
    [promise.resolve]: the guest promise is settled neither way, and a
    script awaiting it waits forever.  The raw request send, which does not
    read the message, still rejects its promise, with that same value. *)
Theorem nullish_rejection_never_settles {H : Type} (bru : Bru H)
    (call_guest : gval -> list gval -> H -> outcome Guest * H)
    (s : Vm.state) (args : list gval) (h h1 : H) (err : hval) :
  err = VNull \/ err = VUndefined ->
  let s' := Vm.exec Shim.addBruShimToContext s in
  (bru_async bru "runRequest" [Codec.dump (Wrappers.arg 0 args)] h
   = (Rejected err, h1) ->
     Guest.call bru call_guest s' ["bru"; "runRequest"] args h
     = ((Pending, []), h1))
  /\ (bru_async bru "getTestResults" [] h = (Rejected err, h1) ->
     Guest.call bru call_guest s' ["bru"; "getTestResults"] args h
     = ((Pending, []), h1))
  /\ (bru_async bru "getAssertionResults" [] h = (Rejected err, h1) ->
     Guest.call bru call_guest s' ["bru"; "getAssertionResults"] args h
     = ((Pending, []), h1))
  /\ (bru_async bru "sendRequest" [Codec.dump (Wrappers.arg 0 args)] h
      = (Rejected err, h1) ->
     Guest.call bru call_guest s' ["bru"; "_sendRequest"] args h
     = ((Rejected (Codec.transfer err), []), h1)).
Proof.
  intros Herr s'. subst s'.
  repeat split; intros Hop.
  - rewrite call_runRequest, Hop. by destruct Herr as [-> | ->].
  - rewrite call_getTestResults, Hop. by destruct Herr as [-> | ->].
  - rewrite call_getAssertionResults, Hop. by destruct Herr as [-> | ->].
  - rewrite call_raw_sendRequest, Hop. by destruct Herr as [-> | ->].
Qed.

Lemma nullish_rejection_never_settles_witness :
  Guest.call (Examples.provider (Rejected VNull)) Examples.returning
    Examples.session ["bru"; "getTestResults"] [] []
  = ((Pending, []), [("getTestResults", [])]).
Proof.
  exact (proj1 (proj2 (nullish_rejection_never_settles
            (Examples.provider (Rejected VNull)) Examples.returning Vm.fresh
            [] [] [("getTestResults", [])] VNull (or_introl eq_refl)))
          eq_refl).
Defined.

(** ** The callback of [bru.sendRequest] *)

Section CallbackFacts.
Import JS Codec.

(** What [JSON.parse(JSON.stringify(v))] returns is plain data. *)
Lemma json_copy_plain {r} (v : jsval r) :
  unserializable v = false -> Surface.plain_data (json_copy v) = true.
Proof.
  induction v as [ | | | | | elems IH | props IH | | ] using jsval_ind;
    intros Hs; try done.
  - simpl. clear Hs. induction IH as [|x l Hx _ IHl]; simpl; [done|].
    rewrite IHl, andb_true_r.
    destruct (unserializable x) eqn:E; [done | by apply Hx].
  - simpl. clear Hs. induction IH as [|[k x] l Hx _ IHl]; simpl; [done|].
    destruct (unserializable x) eqn:E; [done|].
    simpl in *. by rewrite Hx, IHl.
Qed.

Lemma json_roundtrip_plain {r} (v n : jsval r) :
  json_roundtrip v = Normal n -> Surface.plain_data n = true.
Proof.
  unfold json_roundtrip. destruct (unserializable v) eqn:E; [done|].
  intros [= <-]. by apply json_copy_plain.
Qed.

End CallbackFacts.

(** X6.  With a callback, a failed dispatch does not fail the call: when
    the host dispatch rejects with an error that has a JSON text, the
    callback receives the error as plain data (no [undefined], no function,
    no native error inside) together with [null], and once the callback has
    returned the promise of [bru.sendRequest] is fulfilled with
    [undefined]; the error reaches the callback only. *)
Theorem failed_dispatch_goes_to_callback_only {H : Type} (bru : Bru H)
    (call_guest : gval -> list gval -> H -> outcome Guest * H)
    (s : Vm.state) (cfg cb : gval) (h h1 : H) (err : hval) :
  JS.truthy cb = true ->
  JS.unserializable err = false ->
  bru_async bru "sendRequest" [Codec.dump cfg] h = (Rejected err, h1) ->
  exists normalized,
    JS.json_roundtrip (Codec.marshallToVm (Codec.cleanJson err))
    = Normal normalized
    /\ Surface.plain_data normalized = true
    /\ forall v h2,
         call_guest cb [normalized; VNull] h1 = (Fulfilled v, h2) ->
         Guest.call bru call_guest (Vm.exec Shim.addBruShimToContext s)
           ["bru"; "sendRequest"] [cfg; cb] h
         = ((Fulfilled VUndefined, [(cb, [normalized; VNull])]), h2).
Proof.
  intros Hcb Hs Hop.
  destruct (normalized_error_defined err Hs) as (n & Hn).
  exists n. split; [exact Hn|]. split; [by apply (json_roundtrip_plain _ _ Hn)|].
  intros v h2 Hok.
  rewrite (sendRequest_unfolded bru call_guest s cfg cb h _ h1 Hop), Hcb.
  cbn [negb]. rewrite Hn. unfold Guest.guarded_callback. by rewrite Hok.
Qed.

Lemma failed_dispatch_goes_to_callback_only_witness :
  exists normalized,
    JS.json_roundtrip (Codec.marshallToVm (Codec.cleanJson Examples.timeout))
    = Normal normalized
    /\ Surface.plain_data normalized = true
    /\ forall v h2,
         Examples.returning (VFun "cb") [normalized; VNull]
           [("sendRequest", [Codec.dump Examples.requestConfig])]
         = (Fulfilled v, h2) ->
         Guest.call (Examples.provider (Rejected Examples.timeout))
           Examples.returning Examples.session
           ["bru"; "sendRequest"] [Examples.requestConfig; VFun "cb"] []
         = ((Fulfilled VUndefined, [(VFun "cb", [normalized; VNull])]), h2).
Proof.
  exact (failed_dispatch_goes_to_callback_only
           (Examples.provider (Rejected Examples.timeout)) Examples.returning
           Vm.fresh Examples.requestConfig (VFun "cb") []
           [("sendRequest", [Codec.dump Examples.requestConfig])]
           Examples.timeout eq_refl eq_refl eq_refl).
Defined.

(** X7.  Whatever the provider, the callback and the outcome of the
    dispatch, one call of [bru.sendRequest] invokes the callback at most
    once, with two arguments of which one is [null], and invokes nothing
    without a callback; the host state it leaves is the one left by a
    single dispatch of the dumped request config, followed by the callback
    when that was invoked. *)
Theorem callback_invoked_at_most_once {H : Type} (bru : Bru H)
    (call_guest : gval -> list gval -> H -> outcome Guest * H)
    (s : Vm.state) (cfg cb : gval) (h : H) :
  let res := Guest.call bru call_guest (Vm.exec Shim.addBruShimToContext s)
               ["bru"; "sendRequest"] [cfg; cb] h in
  let dispatched := bru_async bru "sendRequest" [Codec.dump cfg] h in
  (snd (fst res) = []
   /\ snd res = snd dispatched)
  \/ (JS.truthy cb = true
      /\ exists a b,
           snd (fst res) = [(cb, [a; b])]
           /\ (a = VNull \/ b = VNull)
           /\ snd res = snd (call_guest cb [a; b] (snd dispatched))).
Proof.
  cbv zeta.
  destruct (bru_async bru "sendRequest" [Codec.dump cfg] h) as [o h1] eqn:Hop.
  rewrite (sendRequest_unfolded bru call_guest s cfg cb h o h1 Hop).
  destruct (JS.truthy cb) eqn:Hcb; cbn [negb snd fst]; [|by left].
  destruct o as [response|err|]; [| |by left].
  - right. split; [done|]. eexists _, _.
    rewrite guarded_callback_invocations. split; [reflexivity|].
    split; [by left|]. unfold Guest.guarded_callback.
    by destruct (call_guest cb _ h1).
  - destruct (JS.json_roundtrip _) as [n|e]; [|by left].
    right. split; [done|]. eexists _, _.
    rewrite guarded_callback_invocations. split; [reflexivity|].
    split; [by right|]. unfold Guest.guarded_callback.
    by destruct (call_guest cb _ h1).
Qed.

(** ** Members that return nothing *)



(** ** One drain for each settlement *)

Section DrainCount.
Import Loop.

Lemma drains_queued_app q q' :
  Surface.drains_queued (q ++ q')
  = Surface.drains_queued q + Surface.drains_queued q'.
Proof.
  unfold Surface.drains_queued. by rewrite List.filter_app, length_app.
Qed.

Lemma drains_balanced_run_job st :
  Surface.drains_balanced st -> Surface.drains_balanced (run_job st).
Proof.
  unfold Surface.drains_balanced, run_job. intros Hb.
  destruct (host_jobs st) as [|[p [x|]|] rest] eqn:E;
    [destruct (timers st) as [|p later]; [by rewrite E|]|..];
    cbn [log host_jobs settle]; rewrite ?drains_queued_app;
    unfold Surface.settlements, Surface.drains, Surface.drains_queued in *;
    simpl in *; lia.
Qed.

Lemma reachable_drains_balanced st : reachable st -> Surface.drains_balanced st.
Proof.
  induction 1 as [|p st _ IH|p a b o st _ IH|p st _ IH|st _ IH].
  - reflexivity.
  - exact IH.
  - unfold Surface.drains_balanced, host_settles in *.
    destruct o; cbn [log host_jobs]; try exact IH;
      rewrite drains_queued_app; unfold Surface.drains_queued at 2;
      simpl; lia.
  - exact IH.
  - by apply drains_balanced_run_job.
Qed.

Lemma drains_balanced_run_jobs n st :
  Surface.drains_balanced st -> Surface.drains_balanced (run_jobs n st).
Proof.
  revert st. induction n as [|n IH]; intros st Hb; simpl; [done|].
  by apply IH, drains_balanced_run_job.
Qed.

End DrainCount.

(** X9.  The guest's pending jobs are drained once for each settlement, no
    more and no less: in every state the queues can reach, the settlements
    observed so far are as many as the drains already run plus the drains
    waiting in the host queue; once the host jobs and the timer callbacks
    have run, every settlement has had its drain. *)
Theorem one_drain_per_settlement (st : Loop.state) :
  Loop.reachable st ->
  Surface.settlements (Loop.log st)
  = Surface.drains (Loop.log st) + Surface.drains_queued (Loop.host_jobs st)
  /\ let st' := Loop.run_jobs (Loop.load st) st in
     Surface.settlements (Loop.log st') = Surface.drains (Loop.log st').
Proof.
  intros Hr. pose proof (reachable_drains_balanced st Hr) as Hb.
  split; [exact Hb|]. cbv zeta.
  pose proof (drains_balanced_run_jobs (Loop.load st) st Hb) as Hb'.
  destruct (run_jobs_drains (Loop.load st) st) as (Hq & _);
    [lia | by apply reachable_drain_due |].
  unfold Surface.drains_balanced in Hb'. rewrite Hq in Hb'.
  unfold Surface.drains_queued in Hb'. simpl in Hb'. lia.
Qed.

Lemma one_drain_per_settlement_witness :
  let st' := Loop.run_jobs (Loop.load Examples.two_settlements)
               Examples.two_settlements in
  Surface.settlements (Loop.log st') = Surface.drains (Loop.log st').
Proof.
  apply (one_drain_per_settlement Examples.two_settlements).
  unfold Examples.two_settlements.
  apply Loop.reach_timer, Loop.reach_settles, Loop.reach_settles,
    Loop.reach_issue, Loop.reach_issue, Loop.reach_issue, Loop.reach_idle.
Defined.

(** * Properties of the request transformer *)

(** ** Loops that may throw *)

Section TransformerLists.
Import Transformer.

Context {A : Type}.
Implicit Types (pred : A -> result bool) (l : list A).

Lemma find_from_Some pred l i j x :
  find_from i pred l = ok (Some (j, x)) ->
  exists l1 l2, l = l1 ++ x :: l2 /\ j = i + length l1
    /\ Forall (fun y => pred y = ok false) l1 /\ pred x = ok true.
Proof.
  revert i. induction l as [|a l IH]; intros i; simpl; [done|].
  unfold bind, ok. destruct (pred a) as [[|]|e] eqn:E; [| |done].
  - intros [= <- <-]. exists [], l. repeat split; [simpl; lia | done | done].
  - intros Hf. destruct (IH _ Hf) as (l1 & l2 & -> & -> & Hl1 & Hx).
    exists (a :: l1), l2. repeat split; [simpl; lia | | done].
    by constructor.
Qed.

Lemma find_from_None pred l i :
  find_from i pred l = ok None -> Forall (fun y => pred y = ok false) l.
Proof.
  revert i. induction l as [|a l IH]; intros i; simpl; [done|].
  unfold bind, ok. destruct (pred a) as [[|]|e] eqn:E; [done| |done].
  intros Hf. constructor; [done | by eapply IH].
Qed.

Lemma find_from_middle pred l1 l2 i x :
  Forall (fun y => pred y = ok false) l1 -> pred x = ok true ->
  find_from i pred (l1 ++ x :: l2) = ok (Some (i + length l1, x)).
Proof.
  intros Hl1 Hx. revert i.
  induction Hl1 as [|a l1 Ha _ IH]; intros i; simpl.
  - rewrite Hx. simpl. by rewrite Nat.add_0_r.
  - rewrite Ha. simpl. rewrite IH. do 3 f_equal. lia.
Qed.

Lemma find_from_all_false pred l i :
  Forall (fun y => pred y = ok false) l -> find_from i pred l = ok None.
Proof.
  intros Hl. revert i. induction Hl as [|a l Ha _ IH]; intros i; simpl; [done|].
  rewrite Ha. simpl. apply IH.
Qed.

Lemma filterM_kept pred l kept :
  filterM pred l = ok kept -> Forall (fun y => pred y = ok true) kept.
Proof.
  revert kept. induction l as [|a l IH]; intros kept; simpl.
  - intros [= <-]. constructor.
  - unfold bind, ok. destruct (pred a) as [b|e] eqn:E; [|done].
    destruct (filterM pred l) as [rest|e]; [|done].
    intros [= <-]. destruct b; [constructor|]; auto.
Qed.

Lemma filterM_true pred l :
  Forall (fun y => pred y = ok true) l -> filterM pred l = ok l.
Proof.
  induction 1 as [|a l Ha _ IH]; simpl; [done|]. by rewrite Ha, IH.
Qed.

Lemma filterM_app pred l1 l2 k1 k2 :
  filterM pred l1 = ok k1 -> filterM pred l2 = ok k2 ->
  filterM pred (l1 ++ l2) = ok (k1 ++ k2).
Proof.
  revert k1. induction l1 as [|a l1 IH]; intros k1; simpl.
  - by intros [= <-].
  - unfold bind, ok. destruct (pred a) as [b|e] eqn:E; [|done].
    destruct (filterM pred l1) as [rest|e] eqn:E1; [|done].
    intros [= <-] H2. rewrite (IH rest eq_refl H2). by destruct b.
Qed.

End TransformerLists.

(** ** Arrays of pairs *)

Section PairFacts.
Import Transformer Postman.

Lemma convert_pairs entries properties :
  foldM convert_element (map pair_entry entries) properties
  = ok (properties ++ map pair_property entries).
Proof.
  revert properties.
  induction entries as [|[[k v] others] entries IH]; intros properties; simpl.
  - by rewrite app_nil_r.
  - rewrite IH. by rewrite <- app_assoc.
Qed.

End PairFacts.

(** X10.  [convertArrayToObject] turns an array of entries
    [{ key: k, value: v, ... }] into the object with one property per
    entry, keyed by the literal [k] and holding the node [v]: the properties
    come in the order of the entries, entries with the same key are all
    kept, and whatever else an entry holds (a [disabled] flag, a
    description) plays no part. *)
Theorem pairs_become_properties (entries : list Postman.pair) :
  Transformer.convertArrayToObject
    (Transformer.ArrayExpression (map Postman.pair_entry entries))
  = Transformer.ok
      (Transformer.ObjectExpression (map Postman.pair_property entries)).
Proof.
  unfold Transformer.convertArrayToObject. by rewrite convert_pairs.
Qed.

(** ** Setting a header *)

Section HeaderFacts.
Import Transformer Postman.

Variable toLowerCase : string -> string.

Lemma other_header_new headerName headerValue :
  other_header toLowerCase headerName
    (Property (str headerName) (str headerValue)) = ok false.
Proof. unfold other_header. simpl. by rewrite String.eqb_refl. Qed.

(** Options that hold the header already, last among the headers. *)
Lemma addOrUpdateHeader_set l1 l2 key kept headerName headerValue :
  Forall (fun p => has_key "headers" p = ok false) l1 ->
  has_key "headers" (Property key (ObjectExpression [])) = ok true ->
  Forall (fun p => other_header toLowerCase headerName p = ok true) kept ->
  let header := Property (str headerName) (str headerValue) in
  let properties :=
    l1 ++ Property key (ObjectExpression (kept ++ [header])) :: l2 in
  find (has_key "headers") properties
  = ok (Some (length l1, Property key (ObjectExpression (kept ++ [header]))))
  /\ addOrUpdateHeader toLowerCase properties headerName headerValue
     = ok properties.
Proof.
  intros Hl1 Hkey Hkept header properties.
  assert (Hfind : find (has_key "headers") properties
    = ok (Some (length l1, Property key (ObjectExpression (kept ++ [header]))))).
  { unfold find, properties.
    by rewrite (find_from_middle _ l1 l2 0
                  (Property key (ObjectExpression (kept ++ [header])))
                  Hl1 Hkey). }
  split; [exact Hfind|].
  unfold addOrUpdateHeader. rewrite Hfind. simpl.
  rewrite (filterM_app _ kept [header] kept []);
    [| by apply filterM_true
     | cbn [filterM]; subst header;
       by rewrite (other_header_new headerName headerValue)].
  simpl. rewrite app_nil_r. unfold ok. f_equal.
  apply list_insert_id. unfold properties.
  by rewrite list_lookup_middle.
Qed.

End HeaderFacts.

(** X11.  After [addOrUpdateHeader] the options have the header exactly
    once: the first property named [headers] is an object whose last
    property is the header with its value, no other literal-keyed property
    of that object bears the name in any letter case, and every other
    property of the options is as before.  Setting the same header again
    changes nothing. *)
Theorem header_set_once (toLowerCase : string -> string)
    (properties properties' : list Transformer.member)
    (headerName headerValue : string) :
  Transformer.addOrUpdateHeader toLowerCase properties headerName headerValue
  = Transformer.ok properties' ->
  exists i key kept,
    Transformer.find (Transformer.has_key "headers") properties'
    = Transformer.ok
        (Some (i, Transformer.Property key
                    (Transformer.ObjectExpression
                       (kept ++ [Transformer.Property (Postman.str headerName)
                                   (Postman.str headerValue)]))))
    /\ Forall (fun p => Transformer.other_header toLowerCase headerName p
                        = Transformer.ok true) kept
    /\ (forall j, j <> i -> properties' !! j = properties !! j)
    /\ Transformer.addOrUpdateHeader toLowerCase properties' headerName
         headerValue
       = Transformer.ok properties'.
Proof.
  unfold Transformer.addOrUpdateHeader at 1.
  destruct (Transformer.find _ properties) as [[[i [key value|arg]]|]|e] eqn:Hf;
    simpl; try done.
  - apply find_from_Some in Hf as (l1 & l2 & -> & -> & Hl1 & Hkey).
    assert (Hkey' : Transformer.has_key "headers"
              (Transformer.Property key (Transformer.ObjectExpression []))
            = Transformer.ok true) by exact Hkey.
    simpl.
    assert (Hother : forall new,
      (forall j, j <> length l1 ->
         <[length l1 := new]> (l1 ++ Transformer.Property key value :: l2) !! j
         = (l1 ++ Transformer.Property key value :: l2) !! j)).
    { intros new j Hj. by apply list_lookup_insert_ne. }
    assert (Hins : forall new,
      <[length l1 := new]> (l1 ++ Transformer.Property key value :: l2)
      = l1 ++ new :: l2).
    { intros new. rewrite insert_app_r_alt by lia.
      by rewrite Nat.sub_diag. }
    destruct value as [ty nm vl|headers|elements|id params body g a
                      |object property computed|callee arguments
                      |ty children];
      try (intros [= <-]; exists (length l1), key, [];
           rewrite Hins;
           destruct (addOrUpdateHeader_set toLowerCase l1 l2 key []
                       headerName headerValue Hl1 Hkey' (List.Forall_nil _))
             as [H1 H2];
           split; [exact H1|]; split; [constructor|];
           split; [intros j Hj; rewrite <- Hins; by apply Hother | exact H2]).
    unfold Transformer.bind.
    destruct (Transformer.filterM _ headers) as [kept|e] eqn:Hk; [|done].
    intros [= <-]. exists (length l1), key, kept. rewrite Hins.
    pose proof (filterM_kept _ _ _ Hk) as Hkept.
    destruct (addOrUpdateHeader_set toLowerCase l1 l2 key kept
                headerName headerValue Hl1 Hkey' Hkept) as [H1 H2].
    split; [exact H1|]. split; [exact Hkept|].
    split; [intros j Hj; rewrite <- Hins; by apply Hother | exact H2].
  - apply find_from_None in Hf.
    intros [= <-]. exists (length properties), (Postman.ident "headers"), [].
    destruct (addOrUpdateHeader_set toLowerCase properties []
                (Postman.ident "headers") [] headerName headerValue Hf
                eq_refl (List.Forall_nil _)) as [H1 H2].
    split; [exact H1|]. split; [constructor|]. split; [|exact H2].
    intros j Hj. destruct (decide (j < length properties)) as [Hlt|Hge].
    + by rewrite lookup_app_l.
    + rewrite (lookup_ge_None_2 properties) by lia.
      apply lookup_ge_None_2. rewrite length_app. simpl. lia.
Qed.

Lemma header_set_once_witness :
  exists i key kept,
    Transformer.find (Transformer.has_key "headers")
      [Transformer.Property (Postman.ident "headers")
         (Transformer.ObjectExpression
            [Transformer.Property (Postman.ident "Accept") (Postman.str "b");
             Transformer.Property (Postman.str "Content-Type")
               (Postman.str "x")])]
    = Transformer.ok
        (Some (i, Transformer.Property key
                    (Transformer.ObjectExpression
                       (kept ++ [Transformer.Property
                                   (Postman.str "Content-Type")
                                   (Postman.str "x")]))))
    /\ Forall (fun p => Transformer.other_header Postman.lower "Content-Type" p
                        = Transformer.ok true) kept
    /\ (forall j, j <> i ->
          [Transformer.Property (Postman.ident "headers")
             (Transformer.ObjectExpression
                [Transformer.Property (Postman.ident "Accept") (Postman.str "b");
                 Transformer.Property (Postman.str "Content-Type")
                   (Postman.str "x")])] !! j
          = [Transformer.Property (Postman.ident "headers")
               (Transformer.ObjectExpression
                  [Transformer.Property (Postman.str "content-type")
                     (Postman.str "a");
                   Transformer.Property (Postman.ident "Accept")
                     (Postman.str "b")])] !! j)
    /\ Transformer.addOrUpdateHeader Postman.lower
         [Transformer.Property (Postman.ident "headers")
            (Transformer.ObjectExpression
               [Transformer.Property (Postman.ident "Accept") (Postman.str "b");
                Transformer.Property (Postman.str "Content-Type")
                  (Postman.str "x")])]
         "Content-Type" "x"
       = Transformer.ok
           [Transformer.Property (Postman.ident "headers")
              (Transformer.ObjectExpression
                 [Transformer.Property (Postman.ident "Accept") (Postman.str "b");
                  Transformer.Property (Postman.str "Content-Type")
                    (Postman.str "x")])].
Proof.
  exact (header_set_once Postman.lower
           [Transformer.Property (Postman.ident "headers")
              (Transformer.ObjectExpression
                 [Transformer.Property (Postman.str "content-type")
                    (Postman.str "a");
                  Transformer.Property (Postman.ident "Accept")
                    (Postman.str "b")])]
           _ "Content-Type" "x" eq_refl).
Defined.

(** ** The header array *)

Section HeadersFacts.
Import Transformer Postman.

Lemma mapM_Forall2 {A B} (f : A -> result B) l l' :
  mapM f l = ok l' -> Forall2 (fun x y => f x = ok y) l l'.
Proof.
  revert l'. induction l as [|x l IH]; intros l'; simpl.
  - intros [= <-]. constructor.
  - unfold bind, ok. destruct (f x) as [y|e] eqn:E; [|done].
    destruct (mapM f l) as [ys|e]; [|done].
    intros [= <-]. constructor; [done | by apply IH].
Qed.

Lemma mapM_id {A} (f : A -> result A) l :
  Forall (fun x => f x = ok x) l -> mapM f l = ok l.
Proof.
  induction 1 as [|x l Hx _ IH]; simpl; [done|]. by rewrite Hx, IH.
Qed.

(** A key that answers to a name is a leaf, and no longer answers to it
    once renamed to another name. *)
Lemma has_key_renamed k k' key value value' :
  has_key k (Property key value) = ok true ->
  String.eqb k' k = false ->
  has_key k (Property (rename key k') value') = ok false.
Proof.
  destruct key; simpl; try done.
  intros _ Hne. unfold is_name, is_string. by rewrite Hne.
Qed.

Lemma transform_header_done p p' :
  transform_header p = ok p' ->
  has_key "header" p' = ok false
  /\ (has_key "header" p = ok false -> p' = p).
Proof.
  unfold transform_header, bind.
  destruct (has_key "header" p) as [[|]|e] eqn:Hk; [| |done].
  - destruct p as [key value|arg]; [|done].
    assert (Hr : forall v, has_key "header" (Property (rename key "headers") v)
                           = ok false).
    { intros v. by apply (has_key_renamed "header" "headers" key value v). }
    destruct value; try (intros [= <-]; split; [apply Hr | done]).
    destruct (convertArrayToObject _) as [v|e]; [|done].
    intros [= <-]. split; [apply Hr | done].
  - intros [= <-]. split; [exact Hk | done].
Qed.

Lemma transform_header_skip p :
  has_key "header" p = ok false -> transform_header p = ok p.
Proof. intros Hk. unfold transform_header. by rewrite Hk. Qed.

Lemma transform_header_pairs key entries :
  has_key "header" (Property key (ArrayExpression (map pair_entry entries)))
  = ok true ->
  transform_header (Property key (ArrayExpression (map pair_entry entries)))
  = ok (Property (rename key "headers")
          (ObjectExpression (map pair_property entries))).
Proof.
  intros Hk. unfold transform_header. rewrite Hk. cbn [bind ok].
  unfold convertArrayToObject. by rewrite convert_pairs.
Qed.

End HeadersFacts.

(** X12.  [transformHeaders] leaves no property named [header]: the
    options keep their length and their order, a property that is not named
    [header] is untouched, a [header] property holding an array of entries
    becomes a property named [headers] holding the object of those entries,
    and transforming the result again changes nothing.  Options that are
    not an object expression are returned as they are. *)
Theorem header_becomes_headers (requestOptions result : Transformer.node) :
  Transformer.transformHeaders requestOptions = Transformer.ok result ->
  (forall properties,
     requestOptions = Transformer.ObjectExpression properties ->
     exists properties',
       result = Transformer.ObjectExpression properties'
       /\ length properties' = length properties
       /\ Forall (fun p => Transformer.has_key "header" p
                           = Transformer.ok false) properties'
       /\ (forall i p, properties !! i = Some p ->
             Transformer.has_key "header" p = Transformer.ok false ->
             properties' !! i = Some p)
       /\ (forall i key entries,
             properties !! i
             = Some (Transformer.Property key
                       (Transformer.ArrayExpression
                          (map Postman.pair_entry entries))) ->
             Transformer.has_key "header"
               (Transformer.Property key (Transformer.ArrayExpression []))
             = Transformer.ok true ->
             properties' !! i
             = Some (Transformer.Property (Transformer.rename key "headers")
                       (Transformer.ObjectExpression
                          (map Postman.pair_property entries)))))
  /\ ((forall properties,
         requestOptions <> Transformer.ObjectExpression properties) ->
      result = requestOptions)
  /\ Transformer.transformHeaders result = Transformer.ok result.
Proof.
  intros Ht.
  destruct requestOptions as [ty nm vl|properties|elements|id params body g a
                             |object property computed|callee arguments
                             |ty children];
    try (injection Ht as <-; split; [intros ? [=] | split; done]).
  unfold Transformer.transformHeaders, Transformer.bind in Ht.
  destruct (Transformer.mapM _ properties) as [properties'|e] eqn:Hm; [|done].
  injection Ht as <-.
  pose proof (mapM_Forall2 _ _ _ Hm) as H2.
  assert (Hdone : Forall (fun p => Transformer.has_key "header" p
                                   = Transformer.ok false) properties').
  { clear Hm. induction H2 as [|p p' l l' Hp _ IH]; constructor; [|done].
    by apply (transform_header_done p p'). }
  split; [|split].
  - intros ? [= <-]. exists properties'. split; [done|].
    split; [symmetry; by eapply Forall2_length|]. split; [exact Hdone|].
    split.
    + intros i p Hi Hk.
      destruct (Forall2_lookup_l _ _ _ _ _ H2 Hi) as (p' & Hi' & Hp).
      rewrite Hi'. f_equal. by apply (transform_header_done p p').
    + intros i key entries Hi Hk.
      destruct (Forall2_lookup_l _ _ _ _ _ H2 Hi) as (p' & Hi' & Hp).
      rewrite Hi'. rewrite (transform_header_pairs key entries Hk) in Hp.
      by injection Hp as <-.
  - intros Hno. by destruct (Hno properties).
  - unfold Transformer.transformHeaders.
    rewrite mapM_id; [done|].
    eapply Forall_impl; [exact Hdone|].
    intros p Hp. by apply transform_header_skip.
Qed.

Lemma header_becomes_headers_witness :
  Transformer.transformHeaders
    (Transformer.ObjectExpression
       [Transformer.Property
          (Transformer.Leaf "Identifier" (Some "headers")
             (Some (Transformer.LStr "headers")))
          (Transformer.ObjectExpression
             [Transformer.Property (Postman.str "X-Trace") (Postman.str "1")])])
  = Transformer.ok
      (Transformer.ObjectExpression
         [Transformer.Property
            (Transformer.Leaf "Identifier" (Some "headers")
               (Some (Transformer.LStr "headers")))
            (Transformer.ObjectExpression
               [Transformer.Property (Postman.str "X-Trace")
                  (Postman.str "1")])]).
Proof.
  exact (proj2 (proj2 (header_becomes_headers
    (Transformer.ObjectExpression
       [Transformer.Property (Postman.ident "header")
          (Transformer.ArrayExpression
             [Postman.pair_entry (Transformer.LStr "X-Trace",
                                  Postman.str "1", [])])])
    _ eq_refl))).
Defined.

(** ** The body *)

Section BodyFacts.
Import Transformer Postman.

Variable toLowerCase : string -> string.

Lemma foldM_app {A S} (f : S -> A -> result S) l1 l2 s :
  foldM f (l1 ++ l2) s = bind (foldM f l1 s) (foldM f l2).
Proof.
  revert s. induction l1 as [|x l1 IH]; intros s; simpl; [done|].
  unfold bind at 1 3. destruct (f s x); [apply IH | done].
Qed.

(** Rounds of the loop over properties that are not named [body]. *)
Lemma body_skip properties k a :
  (forall i p, a <= i < a + k -> properties !! i = Some p ->
     has_key "body" p = ok false) ->
  foldM (transform_body_at toLowerCase) (seq a k) properties = ok properties.
Proof.
  revert a. induction k as [|k IH]; intros a Hskip; simpl; [done|].
  assert (Hstep : transform_body_at toLowerCase properties a = ok properties).
  { unfold transform_body_at.
    destruct (properties !! a) as [p|] eqn:Hp; [|done].
    rewrite (Hskip a p) by (done || lia). done. }
  rewrite Hstep. cbn [bind ok]. apply IH.
  intros i p Hi. apply Hskip. lia.
Qed.

Lemma has_key_rename_other k0 k k' key value value' :
  has_key k0 (Property key value) = ok true ->
  String.eqb k' k = false ->
  has_key k (Property (rename key k') value') = ok false.
Proof.
  destruct key; simpl; try done.
  intros _ Hne. unfold is_name, is_string. by rewrite Hne.
Qed.

(** The loop of [transformBody] when one property is named [body]. *)
Lemma body_loop before after extra key body value properties' :
  Forall unrelated before -> Forall unrelated after ->
  has_key "body" (Property key body) = ok true ->
  transform_body_at toLowerCase (before ++ Property key body :: after)
    (length before)
  = ok properties' ->
  properties' = before ++ Property (rename key "data") value :: after ++ extra ->
  transformBody toLowerCase (ObjectExpression (before ++ Property key body :: after))
  = ok (ObjectExpression properties').
Proof.
  intros Hb Ha Hkey Hstep ->. unfold transformBody.
  rewrite length_app. cbn [length].
  rewrite seq_app. cbn [seq Nat.add]. rewrite foldM_app.
  rewrite body_skip.
  2:{ intros i p Hi Hp. rewrite lookup_app_l in Hp by lia.
      eapply Forall_lookup_1 in Hb; [|exact Hp]. apply Hb. }
  cbn [bind ok foldM]. rewrite Hstep. cbn [bind ok].
  rewrite body_skip; [done|].
  intros i p Hi Hp.
  rewrite lookup_app_r in Hp by lia.
  destruct (i - length before) as [|j] eqn:Hj; [lia|].
  cbn [lookup list_lookup] in Hp.
  change ((after ++ extra) !! j = Some p) in Hp.
  rewrite lookup_app_l in Hp by lia.
  eapply Forall_lookup_1 in Ha; [|exact Hp]. apply Ha.
Qed.

Lemma body_step_raw before after key text :
  has_key "body" (Property key (raw_body text)) = ok true ->
  transform_body_at toLowerCase (before ++ Property key (raw_body text) :: after)
    (length before)
  = ok (before ++ Property (rename key "data") text :: after).
Proof.
  intros Hkey. unfold transform_body_at.
  rewrite list_lookup_middle by done. rewrite Hkey. cbn [bind ok].
  unfold raw_body. simpl.
  rewrite insert_app_r_alt by lia. by rewrite Nat.sub_diag.
Qed.

Lemma pairs_to_data_step before after key mode contentType entries body :
  Forall unrelated before -> Forall unrelated after ->
  has_key "body" (Property key body) = ok true ->
  find (has_array mode) 
    [Property (ident "mode") (str mode);
     Property (ident mode) (ArrayExpression (map pair_entry entries))]
  = ok (Some (1, Property (ident mode)
                   (ArrayExpression (map pair_entry entries)))) ->
  pairs_to_data toLowerCase (before ++ Property key body :: after)
    (length before) key
    [Property (ident "mode") (str mode);
     Property (ident mode) (ArrayExpression (map pair_entry entries))]
    mode contentType
  = ok (before
        ++ Property (rename key "data")
             (ObjectExpression (map pair_property entries))
        :: after ++ [content_type contentType]).
Proof.
  intros Hb Ha Hkey Hfind. unfold pairs_to_data. rewrite Hfind.
  cbn [bind ok]. unfold convertArrayToObject. rewrite convert_pairs.
  cbn [bind ok app objectExpression].
  rewrite insert_app_r_alt by lia. rewrite Nat.sub_diag. cbn [insert list_insert].
  unfold addOrUpdateHeader, find.
  rewrite find_from_all_false.
  2:{ apply Forall_app. split.
      - eapply Forall_impl; [exact Hb|]. by intros p [_ Hp].
      - constructor.
        + by apply (has_key_rename_other "body" "headers" "data" key body).
        + eapply Forall_impl; [exact Ha|]. by intros p [_ Hp]. }
  cbn [bind ok literal identifier property objectExpression].
  unfold content_type, ident, str. f_equal.
  by rewrite <- app_assoc.
Qed.

End BodyFacts.

(** X13.  [transformBody] turns the Postman body into Bruno's [data]:
    among options that hold no [headers] and no other [body], a body
    [{ mode: 'raw', raw: text }] becomes a [data] property holding [text];
    a body in mode [urlencoded] or [formdata] becomes a [data] property
    holding the object of its entries, and a [headers] object with the
    matching [Content-Type] is added last; every other property keeps its
    place; options without a [body] are left as they are. *)
Theorem body_becomes_data (toLowerCase : string -> string)
    (before after : list Transformer.member) (key text : Transformer.node)
    (entries : list Postman.pair) :
  Forall Postman.unrelated before -> Forall Postman.unrelated after ->
  Transformer.has_key "body"
    (Transformer.Property key (Transformer.ObjectExpression []))
  = Transformer.ok true ->
  let options body :=
    Transformer.ObjectExpression
      (before ++ Transformer.Property key body :: after) in
  let data value :=
    Transformer.Property (Transformer.rename key "data") value in
  Transformer.transformBody toLowerCase (options (Postman.raw_body text))
  = Transformer.ok (Transformer.ObjectExpression (before ++ data text :: after))
  /\ Transformer.transformBody toLowerCase
       (options (Postman.pairs_body "urlencoded" entries))
     = Transformer.ok
         (Transformer.ObjectExpression
            (before
             ++ data (Transformer.ObjectExpression
                        (map Postman.pair_property entries))
             :: after
             ++ [Postman.content_type "application/x-www-form-urlencoded"]))
  /\ Transformer.transformBody toLowerCase
       (options (Postman.pairs_body "formdata" entries))
     = Transformer.ok
         (Transformer.ObjectExpression
            (before
             ++ data (Transformer.ObjectExpression
                        (map Postman.pair_property entries))
             :: after ++ [Postman.content_type "multipart/form-data"]))
  /\ Transformer.transformBody toLowerCase
       (Transformer.ObjectExpression (before ++ after))
     = Transformer.ok (Transformer.ObjectExpression (before ++ after)).
Proof.
  intros Hb Ha Hkey. cbv zeta. repeat split.
  - apply (body_loop toLowerCase before after [] key (Postman.raw_body text)
             text
             (before
              ++ Transformer.Property (Transformer.rename key "data") text
              :: after));
      [done | done | exact Hkey
      | by apply body_step_raw | by rewrite app_nil_r].
  - eapply (body_loop toLowerCase before after _ key); try done.
    unfold Transformer.transform_body_at.
    rewrite list_lookup_middle by done.
    replace (Transformer.has_key "body" _) with (Transformer.ok (A:=bool) true)
      by (symmetry; exact Hkey).
    cbn [Transformer.bind Transformer.ok]. unfold Postman.pairs_body. simpl.
    by apply (pairs_to_data_step toLowerCase before after key "urlencoded").
  - eapply (body_loop toLowerCase before after _ key); try done.
    unfold Transformer.transform_body_at.
    rewrite list_lookup_middle by done.
    replace (Transformer.has_key "body" _) with (Transformer.ok (A:=bool) true)
      by (symmetry; exact Hkey).
    cbn [Transformer.bind Transformer.ok]. unfold Postman.pairs_body. simpl.
    by apply (pairs_to_data_step toLowerCase before after key "formdata").
  - unfold Transformer.transformBody. rewrite body_skip; [done|].
    intros i p _ Hp.
    assert (Hall : Forall Postman.unrelated (before ++ after))
      by (apply Forall_app; by split).
    eapply Forall_lookup_1 in Hall; [|exact Hp]. apply Hall.
Qed.

Lemma body_becomes_data_witness :
  Transformer.transformBody Postman.lower
    (Transformer.ObjectExpression
       ([Transformer.Property (Postman.ident "url") (Postman.str "/login")]
        ++ Transformer.Property (Postman.ident "body")
             (Postman.pairs_body "urlencoded"
                [(Transformer.LStr "user", Postman.str "ada", [])])
        :: []))
  = Transformer.ok
      (Transformer.ObjectExpression
         ([Transformer.Property (Postman.ident "url") (Postman.str "/login")]
          ++ Transformer.Property
               (Transformer.rename (Postman.ident "body") "data")
               (Transformer.ObjectExpression
                  (map Postman.pair_property
                     [(Transformer.LStr "user", Postman.str "ada", [])]))
          :: []
          ++ [Postman.content_type "application/x-www-form-urlencoded"])).
Proof.
  apply (proj1 (proj2 (body_becomes_data Postman.lower
           [Transformer.Property (Postman.ident "url") (Postman.str "/login")]
           [] (Postman.ident "body") (Postman.str "")
           [(Transformer.LStr "user", Postman.str "ada", [])]
           ltac:(repeat constructor) ltac:(constructor) eq_refl))).
Defined.

(** ** The callback *)

(** Structural induction on syntax nodes. *)
Section NodeInduction.
Import Transformer.

Variable P : node -> Prop.

Let P_property (p : member) : Prop :=
  match p with
  | Property key value => P key /\ P value
  | SpreadElement argument => P argument
  end.

Let P_element (elem : option node) : Prop :=
  match elem with
  | Some x => P x
  | None => True
  end.

Hypothesis P_leaf : forall type name value, P (Leaf type name value).
Hypothesis P_object :
  forall properties,
    Forall P_property properties -> P (ObjectExpression properties).
Hypothesis P_array :
  forall elements, Forall P_element elements -> P (ArrayExpression elements).
Hypothesis P_function :
  forall id params body generator async,
    Forall P params -> Forall P body ->
    P (FunctionExpression id params body generator async).
Hypothesis P_member :
  forall object property computed,
    P object -> P property -> P (MemberExpression object property computed).
Hypothesis P_call :
  forall callee arguments,
    P callee -> Forall P arguments -> P (CallExpression callee arguments).
Hypothesis P_other :
  forall type children, Forall P children -> P (Other type children).

Fixpoint node_ind (n : node) : P n :=
  let all :=
    fix all (l : list node) : Forall P l :=
      match l with
      | [] => List.Forall_nil P
      | x :: l' => List.Forall_cons P x l' (node_ind x) (all l')
      end in
  match n with
  | Leaf type name value => P_leaf type name value
  | ObjectExpression properties =>
      P_object properties
        ((fix each (l : list member) : Forall P_property l :=
            match l with
            | [] => List.Forall_nil P_property
            | p :: l' =>
                List.Forall_cons P_property p l'
                  match p return P_property p with
                  | Property key value => conj (node_ind key) (node_ind value)
                  | SpreadElement argument => node_ind argument
                  end (each l')
            end) properties)
  | ArrayExpression elements =>
      P_array elements
        ((fix each (l : list (option node)) : Forall P_element l :=
            match l with
            | [] => List.Forall_nil P_element
            | elem :: l' =>
                List.Forall_cons P_element elem l'
                  match elem return P_element elem with
                  | Some x => node_ind x
                  | None => I
                  end (each l')
            end) elements)
  | FunctionExpression id params body generator async =>
      P_function id params body generator async (all params) (all body)
  | MemberExpression object property computed =>
      P_member object property computed (node_ind object) (node_ind property)
  | CallExpression callee arguments =>
      P_call callee arguments (node_ind callee) (all arguments)
  | Other type children => P_other type children (all children)
  end.

End NodeInduction.

Section CallbackTranslation.
Import Transformer Postman.

Variable responseVarName : option string.

(** A node keeps being, or not being, an identifier of a given name. *)
Lemma translate_identifier n n' :
  translate responseVarName n = ok n' -> type_of n' = "Identifier" ->
  type_of n = "Identifier" /\ name_of n = name_of n'.
Proof.
  destruct n as [ty nm vl|properties|elements|id params body g a
                |object property computed|callee arguments|ty children];
    simpl; unfold bind, ok, fail, method_call, property_access, identifier,
      bind, ok, fail;
    repeat match goal with
      | |- context [match ?m with inl _ => _ | inr _ => _ end] =>
          destruct m as [?|?]
      | |- context [match ?m with Some _ => _ | None => _ end] =>
          destruct m as [?|]
      | |- context [if ?c then _ else _] => destruct c
      end;
    try done; intros [= <-]; simpl; try done.
Qed.

Lemma mapped_targets name bruProperty :
  responsePropertyMap name = Mapped bruProperty ->
  In bruProperty
    ["getBody"; "getStatus()"; "statusText"; "getResponseTime()";
     "getHeaders()"].
Proof.
  unfold responsePropertyMap. destruct name as [n|]; [|done].
  repeat match goal with
    | |- context [if ?c then _ else _] => destruct c
    end; try done; intros [= <-]; simpl; tauto.
Qed.

Lemma missing_not_postman name :
  responsePropertyMap name = Missing ->
  match name with
  | Some n => existsb (String.eqb n) postman_only
  | None => false
  end = false.
Proof.
  unfold responsePropertyMap. destruct name as [n|]; [|done]. simpl.
  repeat match goal with
    | |- context [if ?c then _ else _] => destruct c eqn:?
    end; try done.
Qed.

Lemma translation_Some n bruProperty :
  translation responseVarName n = ok (Some bruProperty) ->
  exists name, responsePropertyMap name = Mapped bruProperty.
Proof.
  destruct n; try done. simpl.
  destruct (_ && _); [|done].
  destruct (responsePropertyMap _) eqn:E; try done.
  intros [= <-]. by eexists.
Qed.

Lemma translation_None object property computed :
  translation responseVarName (MemberExpression object property computed)
  = ok None ->
  reads_postman responseVarName (MemberExpression object property computed)
  = false.
Proof.
  unfold translation, reads_postman.
  destruct (_ && _); [|done].
  destruct (responsePropertyMap _) eqn:E; try done.
  intros _. by rewrite (missing_not_postman _ E).
Qed.

(** The replacements read no Postman property. *)
Lemma replacement_fresh bruProperty n' :
  In bruProperty
    ["getBody"; "getStatus()"; "statusText"; "getResponseTime()";
     "getHeaders()"] ->
  (if endsWith bruProperty "()"
   then method_call responseVarName bruProperty
   else property_access responseVarName bruProperty) = ok n' ->
  stale responseVarName n' = false.
Proof.
  intros Hin. destruct responseVarName as [r|]; simpl in Hin.
  - decompose [or] Hin; subst; try done; simpl; intros [= <-]; simpl;
      by rewrite ?andb_false_r.
  - decompose [or] Hin; subst; done.
Qed.

Lemma reads_postman_translated object property object' property' computed :
  translate responseVarName object = ok object' ->
  translate responseVarName property = ok property' ->
  reads_postman responseVarName (MemberExpression object property computed)
  = false ->
  reads_postman responseVarName (MemberExpression object' property' computed)
  = false.
Proof.
  intros Ho Hp. cbn [reads_postman matches].
  destruct (String.eqb (type_of object') "Identifier") eqn:Eo; [|done].
  destruct (String.eqb (type_of property') "Identifier") eqn:Ep;
    [|by rewrite andb_false_r].
  apply String.eqb_eq in Eo, Ep.
  destruct (translate_identifier _ _ Ho Eo) as [-> ->].
  destruct (translate_identifier _ _ Hp Ep) as [-> ->].
  done.
Qed.

Lemma translate_all_fresh l l' :
  Forall (fresh_after responseVarName) l ->
  mapM (translate responseVarName) l = ok l' ->
  existsb (stale responseVarName) l' = false.
Proof.
  intros Hl. revert l'. induction Hl as [|x l Hx _ IH]; intros l'; simpl.
  - by intros [= <-].
  - unfold bind, ok.
    destruct (translate responseVarName x) as [x'|e] eqn:Ex; [|done].
    destruct (mapM _ l) as [rest|e]; [|done].
    intros [= <-]. simpl. by rewrite (Hx x' Ex), (IH rest).
Qed.

Lemma translate_fresh n : fresh_after responseVarName n.
Proof.
  induction n as [ty nm vl|properties IH|elements IH
                 |id params body g a IHp IHb
                 |object property computed IHo IHp
                 |callee arguments IHc IHa|ty children IH] using node_ind;
    intros n'.
  - by intros [= <-].
  - cbn [translate]. unfold bind at 1, ok at 3.
    destruct (mapM _ properties) as [properties'|e] eqn:Hm; [|done].
    intros [= <-]. cbn [stale reads_postman orb].
    revert properties' Hm. induction IH as [|p l Hp _ IHl]; intros l'; simpl.
    + by intros [= <-].
    + unfold bind, ok. destruct p as [key value|argument].
      * destruct Hp as [Hk Hv].
        destruct (translate responseVarName key) as [k'|e] eqn:Ek; [|done].
        destruct (translate responseVarName value) as [v'|e] eqn:Ev; [|done].
        destruct (mapM _ l) as [rest|e]; [|done].
        intros [= <-]. simpl.
        by rewrite (Hk k' Ek), (Hv v' Ev), (IHl rest).
      * destruct (translate responseVarName argument) as [a'|e] eqn:Ea;
          [|done].
        destruct (mapM _ l) as [rest|e]; [|done].
        intros [= <-]. simpl. by rewrite (Hp a' Ea), (IHl rest).
  - cbn [translate]. unfold bind at 1, ok at 3.
    destruct (mapM _ elements) as [elements'|e] eqn:Hm; [|done].
    intros [= <-]. cbn [stale reads_postman orb].
    revert elements' Hm. induction IH as [|p l Hp _ IHl]; intros l'; simpl.
    + by intros [= <-].
    + unfold bind, ok. destruct p as [x|].
      * destruct (translate responseVarName x) as [x'|e] eqn:Ex; [|done].
        destruct (mapM _ l) as [rest|e]; [|done].
        intros [= <-]. simpl. by rewrite (Hp x' Ex), (IHl rest).
      * destruct (mapM _ l) as [rest|e]; [|done].
        intros [= <-]. simpl. by rewrite (IHl rest).
  - cbn [translate]. unfold bind, ok.
    destruct (mapM _ params) as [params'|e] eqn:Hp; [|done].
    destruct (mapM _ body) as [body'|e] eqn:Hb; [|done].
    intros [= <-]. cbn [stale reads_postman orb].
    by rewrite (translate_all_fresh _ _ IHp Hp), (translate_all_fresh _ _ IHb Hb).
  - cbn [translate]. unfold bind at 1.
    destruct (translation _ _) as [[bruProperty|]|e] eqn:Ht; [| |done].
    + destruct (translation_Some _ _ Ht) as (name & Hname).
      apply replacement_fresh. by apply (mapped_targets name).
    + unfold bind, ok.
      destruct (translate responseVarName object) as [o'|e] eqn:Eo; [|done].
      destruct (translate responseVarName property) as [p'|e] eqn:Ep; [|done].
      intros [= <-]. cbn [stale].
      rewrite (reads_postman_translated _ _ _ _ _ Eo Ep (translation_None _ _ _ Ht)).
      by rewrite (IHo o' Eo), (IHp p' Ep).
  - cbn [translate]. unfold bind at 1.
    destruct (translation _ _) as [found|e] eqn:Ht; [|done].
    assert (Hplace :
      (callee' <- translate responseVarName callee ;;
       arguments' <- mapM (translate responseVarName) arguments ;;
       ok (CallExpression callee' arguments')) = ok n' ->
      stale responseVarName n' = false).
    { unfold bind, ok.
      destruct (translate responseVarName callee) as [c'|e] eqn:Ec; [|done].
      destruct (mapM _ arguments) as [rest|e] eqn:Hr; [|done].
      intros [= <-]. cbn [stale reads_postman orb].
      by rewrite (IHc c' Ec), (translate_all_fresh _ _ IHa Hr). }
    destruct found as [bruProperty|]; [|exact Hplace].
    destruct (endsWith bruProperty "()") eqn:Hends; [|exact Hplace].
    unfold bind at 1.
    destruct (method_call _ _) as [call|e] eqn:Hcall; [|done].
    unfold bind, ok. destruct (mapM _ arguments); [|done].
    intros [= <-].
    destruct (translation_Some _ _ Ht) as (name & Hname).
    apply (replacement_fresh bruProperty); [by apply (mapped_targets name)|].
    by rewrite Hends.
  - cbn [translate]. unfold bind, ok.
    destruct (mapM _ children) as [children'|e] eqn:Hm; [|done].
    intros [= <-]. cbn [stale reads_postman orb].
    by apply (translate_all_fresh children).
Qed.

End CallbackTranslation.

Section CallbackFacts.
Import Transformer Postman.

Lemma transformCallback_function id params body generator async f :
  transformCallback (Some (FunctionExpression id params body generator async))
  = ok (Some f) ->
  exists error response body',
    param_name params 0 "error" = Some error
    /\ param_name params 1 "response" = Some response
    /\ mapM (translate (Some response)) body = ok body'
    /\ f = FunctionExpression None [ident error; ident response] body'
             false false.
Proof.
  unfold transformCallback, bind, ok.
  destruct (param_name params 1 "response") as [response|] eqn:Hr.
  - destruct (mapM _ body) as [body'|e] eqn:Hb; [|done].
    destruct (param_name params 0 "error") as [error|] eqn:He; [|done].
    simpl. intros [= <-]. by exists error, response, body'.
  - destruct (mapM _ body) as [body'|e]; [|done].
    destruct (identifier (param_name params 0 "error")); done.
Qed.

Lemma transformCallback_other callback :
  (forall id params body generator async,
     callback <> FunctionExpression id params body generator async) ->
  transformCallback (Some callback) = ok None.
Proof.
  intros Hno. destruct callback; try done. by edestruct Hno.
Qed.

End CallbackFacts.



(** X15.  What [sendRequestTransformer] returns: nothing when the parent
    of the path is not a call or the call has no argument; otherwise a call
    of the identifier [bru.sendRequest] on the request options, which are
    passed on untouched unless they are an object expression, followed by
    the translated callback when the second argument is a function
    expression.  A callback of any other kind (an arrow function, a
    reference to a function) is dropped, and so is every further
    argument. *)
Theorem transformer_output (toLowerCase : string -> string)
    (callExpr : Transformer.node) (out : option Transformer.node) :
  Transformer.sendRequestTransformer toLowerCase callExpr
  = Transformer.ok out ->
  match callExpr with
  | Transformer.CallExpression _ (requestOptions :: rest) =>
      exists requestOptions' callbacks,
        out = Some (Transformer.CallExpression
                      (Postman.ident "bru.sendRequest")
                      (requestOptions' :: callbacks))
        /\ ((forall properties,
               requestOptions <> Transformer.ObjectExpression properties) ->
            requestOptions' = requestOptions)
        /\ match rest with
           | Transformer.FunctionExpression _ params body _ _ :: _ =>
               exists error response body',
                 callbacks
                 = [Transformer.FunctionExpression None
                      [Postman.ident error; Postman.ident response] body'
                      false false]
                 /\ Transformer.param_name params 0 "error" = Some error
                 /\ Transformer.param_name params 1 "response" = Some response
                 /\ Transformer.mapM (Transformer.translate (Some response))
                      body
                    = Transformer.ok body'
           | _ => callbacks = []
           end
  | _ => out = None
  end.
Proof.
  destruct callExpr as [ty nm vl|properties|elements|id params body g a
                       |object property computed|callee arguments
                       |ty children];
    try (by intros [= <-]).
  destruct arguments as [|requestOptions rest]; [by intros [= <-]|].
  unfold Transformer.sendRequestTransformer.
  unfold Transformer.bind at 1.
  match goal with
  | |- context [match ?m with inl _ => _ | inr _ => _ end] =>
      destruct m as [requestOptions'|e] eqn:Hopt; [|done]
  end.
  assert (Hsame : (forall properties,
                     requestOptions <> Transformer.ObjectExpression properties)
                  -> requestOptions' = requestOptions).
  { intros Hno. destruct requestOptions; try (by injection Hopt as <-).
    by edestruct Hno. }
  destruct rest as [|callback rest]; cbn [lookup list_lookup].
  - cbn. intros [= <-]. by exists requestOptions', [].
  - change ((requestOptions :: callback :: rest) !! 1) with (Some callback).
    cbn beta iota. unfold Transformer.bind at 1.
    destruct (Transformer.transformCallback (Some callback))
      as [transformed|e] eqn:Ht; [|done].
    cbn. intros [= <-].
    destruct callback as [ty nm vl|properties|elements|id params body g a
                         |object property computed|callee' arguments'
                         |ty children];
      try (injection Ht as <-; by exists requestOptions', []).
    destruct transformed as [f|].
    + destruct (transformCallback_function _ _ _ _ _ _ Ht)
        as (error & response & body' & He & Hr & Hb & ->).
      exists requestOptions', [Transformer.FunctionExpression None
                                 [Postman.ident error; Postman.ident response]
                                 body' false false].
      split; [done|]. split; [done|]. by exists error, response, body'.
    + exfalso. revert Ht.
      unfold Transformer.transformCallback, Transformer.bind.
      destruct (Transformer.mapM _ body); [|done].
      destruct (Transformer.identifier _); [|done].
      destruct (Transformer.identifier _); done.
Qed.

Lemma transformer_output_witness :
  exists requestOptions' callbacks,
    Transformer.sendRequestTransformer Postman.lower Postman.call
    = Transformer.ok
        (Some (Transformer.CallExpression (Postman.ident "bru.sendRequest")
                 (requestOptions' :: callbacks)))
    /\ length callbacks = 1.
Proof.
  pose proof (transformer_output Postman.lower Postman.call _ eq_refl) as Hs.
  cbn [Postman.call Postman.callback] in Hs.
  destruct Hs as (requestOptions' & callbacks & Hout & _ & Hcb).
  destruct Hcb as (error & response & body' & -> & _).
  exists requestOptions',
    [Transformer.FunctionExpression None
       [Postman.ident error; Postman.ident response] body' false false].
  split; [|done]. by rewrite <- Hout.
Defined.

(** X16.  A member of the response that bears the name of a property of
    [Object.prototype] ([toString], [hasOwnProperty], [constructor], ...)
    makes the translation throw: the lookup in the table of translations
    finds the inherited property, which has no [endsWith].  The error
    leaves [transformCallback] whatever precedes and follows the statement
    in the body of the callback, provided the statements before it are
    translated without error. *)
Theorem inherited_property_throws (response name : string) (computed : bool)
    (id : option Transformer.node) (error : Transformer.node)
    (before before' after : list Transformer.node)
    (generator async : bool) :
  In name Transformer.object_prototype ->
  Transformer.mapM (Transformer.translate (Some response)) before
  = Transformer.ok before' ->
  let read :=
    Transformer.MemberExpression (Postman.ident response) (Postman.ident name)
      computed in
  Transformer.translate (Some response) read
  = Transformer.fail Transformer.TypeError
  /\ Transformer.transformCallback
       (Some (Transformer.FunctionExpression id
                [error; Postman.ident response]
                (before ++ Transformer.Other "ExpressionStatement" [read]
                 :: after)
                generator async))
     = Transformer.fail Transformer.TypeError.
Proof.
  intros Hin Hbefore read.
  assert (Hread : Transformer.translate (Some response) read
                  = Transformer.fail Transformer.TypeError).
  { subst read. cbn [Transformer.translate Transformer.translation
                     Transformer.matches Transformer.type_of
                     Transformer.name_of Transformer.same_name Postman.ident].
    rewrite (String.eqb_refl response). cbn [andb].
    assert (Hmap : Transformer.responsePropertyMap (Some name)
                   = Transformer.Inherited).
    { unfold Transformer.object_prototype in Hin. simpl in Hin.
      repeat (destruct Hin as [<-|Hin]; [reflexivity|]). destruct Hin. }
    by rewrite Hmap. }
  split; [exact Hread|]. clearbody read.
  unfold Transformer.transformCallback.
  change (Transformer.param_name [error; Postman.ident response] 1 "response")
    with (Some response).
  assert (Hbody : Transformer.mapM (Transformer.translate (Some response))
                    (before ++ Transformer.Other "ExpressionStatement" [read]
                     :: after)
                  = Transformer.fail Transformer.TypeError).
  { clear Hin. revert before' Hbefore.
    induction before as [|x before IH]; intros before'; simpl.
    - intros _. by rewrite Hread.
    - unfold Transformer.bind, Transformer.ok.
      destruct (Transformer.translate (Some response) x); [|done].
      destruct (Transformer.mapM _ before) as [rest|e] eqn:Hrest; [|done].
      intros _. by rewrite (IH rest eq_refl). }
  by rewrite Hbody.
Qed.

Lemma inherited_property_throws_witness :
  Transformer.translate (Some "res")
    (Transformer.MemberExpression (Postman.ident "res")
       (Postman.ident "toString") false)
  = Transformer.fail Transformer.TypeError.
Proof.
  apply (proj1 (inherited_property_throws "res" "toString" false None
                  (Postman.ident "err") [] [] [] false false
                  ltac:(unfold Transformer.object_prototype;
                        do 5 right; left; reflexivity)
                  eq_refl)).
Defined.
